(** * pynaive: the block chain of [blockchain.py]

    A shallow embedding of the classes [Block] and [Blockchain] and the
    properties of hashing, mining, validation, difficulty retargeting and
    chain replacement.

    Conventions of the embedding.
    - A Python [int] is a [Z]; [bytes] is a list of [Byte.byte]; [str] is
      a [string].
    - A timezone-aware [datetime] is the number of microseconds since the
      Unix epoch (a [Z]); a [timedelta] is a difference of two of them.
      [timedelta.total_seconds()] is that number divided by [10**6],
      rounded to a double; the code only compares it with the integers
      50, 60 and 200, and such a comparison agrees with the comparison of
      the microseconds.  [int(dt.timestamp())] truncates toward zero; the
      double is within half a microsecond of the exact quotient for every
      instant less than [2**33] seconds from the epoch, the range the
      model is meant for.
    - A call that can raise returns a [Result]; methods of [Blockchain]
      return the new state next to the result, also when they raise,
      because an exception leaves the mutations made before it in place.
    - The classes of [transaction.py], the pool, the wallet and the helpers
      of [utils.py] are collaborators: their operations are the fields of
      the class [Collaborators]. *)

From Stdlib Require Import ZArith Lia List Bool String Ascii.
From Stdlib.Strings Require Byte.
From stdpp Require Import base option list gmap strings.

Local Open Scope Z_scope.

(** ** Bytes *)

Abbreviation byte := Byte.byte.
Abbreviation bytes := (list Byte.byte).

#[export] Instance byte_eq_dec : EqDecision byte := Byte.byte_eq_dec.

Definition byte_to_Z (b : byte) : Z := Z.of_N (Byte.to_N b).

Definition byte_of_Z (z : Z) : byte :=
  match Byte.of_N (Z.to_N (z mod 256)) with
  | Some b => b
  | None => Byte.x00
  end.

(** The [n] low-order bytes of [z], most significant first. *)
Fixpoint big_endian (n : nat) (z : Z) : bytes :=
  match n with
  | O => []
  | S k => big_endian k (Z.shiftr z 8) ++ [byte_of_Z z]
  end.

(** The bits of a byte and of a byte string, most significant first:
    [BitArray(bytes=...).bin] with [false] for the character 0. *)
Definition byte_bits (b : byte) : list bool :=
  let z := byte_to_Z b in
  map (fun i => Z.testbit z (Z.of_nat i)) [7; 6; 5; 4; 3; 2; 1; 0]%nat.

Definition bits_of (bs : bytes) : list bool := concat (map byte_bits bs).

(** [prefix.startswith]: [s.startswith(p)] on lists of bits. *)
Fixpoint startswith (s p : list bool) : bool :=
  match p, s with
  | [], _ => true
  | _ :: _, [] => false
  | x :: p', y :: s' => Bool.eqb x y && startswith s' p'
  end.


(** The number that a list of bits writes, most significant bit first. *)
Fixpoint bits_value (bits : list bool) : Z :=
  match bits with
  | [] => 0
  | b :: rest => Z.b2z b * 2 ^ Z.of_nat (length rest) + bits_value rest
  end.

(** ** [hashlib.sha256] (FIPS 180-4) *)

Module SHA256.

Definition w32 (x : Z) : Z := x mod 2 ^ 32.

Definition add32 (x y : Z) : Z := w32 (x + y).

Definition rotr (n x : Z) : Z :=
  Z.lor (Z.shiftr x n) (w32 (Z.shiftl x (32 - n))).

Definition Ch (x y z : Z) : Z :=
  Z.lxor (Z.land x y) (Z.land (Z.lnot x) z).

Definition Maj (x y z : Z) : Z :=
  Z.lxor (Z.lxor (Z.land x y) (Z.land x z)) (Z.land y z).

Definition Sigma0 (x : Z) : Z := Z.lxor (Z.lxor (rotr 2 x) (rotr 13 x)) (rotr 22 x).
Definition Sigma1 (x : Z) : Z := Z.lxor (Z.lxor (rotr 6 x) (rotr 11 x)) (rotr 25 x).
Definition sigma0 (x : Z) : Z := Z.lxor (Z.lxor (rotr 7 x) (rotr 18 x)) (Z.shiftr x 3).
Definition sigma1 (x : Z) : Z := Z.lxor (Z.lxor (rotr 17 x) (rotr 19 x)) (Z.shiftr x 10).

(** The constants are the first 32 bits of the fractional parts of the
    cube roots of the first 64 primes; the initial registers are those of
    the square roots of the first 8. *)
Definition is_prime (n : Z) : bool :=
  forallb (λ d, negb (n mod d =? 0)) (map Z.of_nat (seq 2 (Z.to_nat n - 2))).

Definition primes : list Z :=
  Eval vm_compute in List.filter is_prime (map Z.of_nat (seq 2 310)).

(** The integer cube root of a number below [2 ^ 120], bit by bit. *)
Definition cbrt (n : Z) : Z :=
  fold_left
    (λ r bit, let r' := r + 2 ^ bit in if r' ^ 3 <=? n then r' else r)
    (map Z.of_nat (rev (seq 0 40))) 0.

Definition K : list Z :=
  Eval vm_compute in map (λ p, cbrt (p * 2 ^ 96) mod 2 ^ 32) primes.

Definition H0 : list Z :=
  Eval vm_compute in map (λ p, Z.sqrt (p * 2 ^ 64) mod 2 ^ 32) (take 8 primes).

(** Padding: a one bit, zero bits up to 56 modulo 64 bytes, and the length
    of the message in bits on eight bytes. *)
Definition pad (msg : bytes) : bytes :=
  let len := Z.of_nat (length msg) in
  let zeros := Z.to_nat ((55 - len) mod 64) in
  msg ++ [Byte.x80] ++ repeat Byte.x00 zeros ++ big_endian 8 (8 * len).

Fixpoint word_of_bytes (acc : Z) (bs : bytes) : Z :=
  match bs with
  | [] => acc
  | b :: bs' => word_of_bytes (acc * 256 + byte_to_Z b) bs'
  end.

(** The big-endian 32-bit words of a byte string whose length is a multiple
    of four. *)
Fixpoint words (n : nat) (bs : bytes) : list Z :=
  match n with
  | O => []
  | S k => word_of_bytes 0 (take 4 bs) :: words k (drop 4 bs)
  end.

(** The message schedule, latest word first: [extend k ws] adds [k] words
    to the words [ws]. *)
Fixpoint extend (k : nat) (ws : list Z) : list Z :=
  match k with
  | O => ws
  | S k' =>
      let w := add32 (add32 (sigma1 (nth 1 ws 0)) (nth 6 ws 0))
                     (add32 (sigma0 (nth 14 ws 0)) (nth 15 ws 0)) in
      extend k' (w :: ws)
  end.

Definition schedule (block : list Z) : list Z := rev (extend 48 (rev block)).

Record regs := Regs { ra : Z; rb : Z; rc : Z; rd : Z; re : Z; rf : Z; rg : Z; rh : Z }.

Definition round (s : regs) (kw : Z * Z) : regs :=
  let '(k, w) := kw in
  let t1 := add32 (add32 (add32 (rh s) (Sigma1 (re s))) (Ch (re s) (rf s) (rg s)))
                  (add32 k w) in
  let t2 := add32 (Sigma0 (ra s)) (Maj (ra s) (rb s) (rc s)) in
  Regs (add32 t1 t2) (ra s) (rb s) (rc s) (add32 (rd s) t1) (re s) (rf s) (rg s).

Definition compress (h : regs) (block : list Z) : regs :=
  let s := fold_left round (combine K (schedule block)) h in
  Regs (add32 (ra h) (ra s)) (add32 (rb h) (rb s)) (add32 (rc h) (rc s))
       (add32 (rd h) (rd s)) (add32 (re h) (re s)) (add32 (rf h) (rf s))
       (add32 (rg h) (rg s)) (add32 (rh h) (rh s)).

Fixpoint chunks (n : nat) (h : regs) (ws : list Z) : regs :=
  match n with
  | O => h
  | S k => chunks k (compress h (take 16 ws)) (drop 16 ws)
  end.

Definition initial : regs :=
  Regs (nth 0 H0 0) (nth 1 H0 0) (nth 2 H0 0) (nth 3 H0 0)
       (nth 4 H0 0) (nth 5 H0 0) (nth 6 H0 0) (nth 7 H0 0).

Definition digest (msg : bytes) : bytes :=
  let p := pad msg in
  let nblocks := (length p / 64)%nat in
  let h := chunks nblocks initial (words (16 * nblocks) p) in
  concat (map (big_endian 4)
            [ra h; rb h; rc h; rd h; re h; rf h; rg h; rh h]).

End SHA256.

#[global] Arguments SHA256.digest : simpl never.

(** A [hashlib] hasher: [update] appends to the message, [digest] hashes
    what has been fed so far. *)
Definition hasher := bytes.
Definition hasher_new : hasher := [].
Definition hasher_update (h : hasher) (bs : bytes) : hasher := h ++ bs.
Definition hasher_digest (h : hasher) : bytes := SHA256.digest h.

(** ** Dates *)

Definition datetime := Z.
Definition timedelta := Z.

(** [seconds n] is [timedelta(seconds=n)]. *)
Definition seconds (n : Z) : timedelta := n * 1000000.

(** [int(dt.timestamp())] *)
Definition timestamp_int (dt : datetime) : Z := Z.quot dt 1000000.

(** [datetime.fromtimestamp(s, tz=timezone.utc)] for an integer [s] *)
Definition fromtimestamp (s : Z) : datetime := s * 1000000.

(** [td.total_seconds() < n] and [td.total_seconds() > n] for an integer
    [n] *)
Definition total_seconds_lt (td : timedelta) (n : Z) : bool := td <? seconds n.
Definition total_seconds_gt (td : timedelta) (n : Z) : bool := seconds n <? td.

(** ** [bytes.hex()] *)

Definition hex_digit (n : Z) : ascii :=
  ascii_of_nat (Z.to_nat (if n <? 10 then 48 + n else 87 + n)).

Fixpoint bytes_hex (bs : bytes) : string :=
  match bs with
  | [] => EmptyString
  | b :: bs' =>
      String (hex_digit (byte_to_Z b / 16))
        (String (hex_digit (byte_to_Z b mod 16)) (bytes_hex bs'))
  end.

(** ** Raw objects and exceptions

    A raw object is what [json] reads and writes: [None], an integer, a
    string, a list or a dictionary with string keys. *)

#[warnings="-register-all"]
Inductive json :=
| JNone
| JInt (n : Z)
| JStr (s : string)
| JList (l : list json)
| JDict (d : gmap string json).

Inductive exn :=
| OverflowError
| IndexError
| KeyError (key : string)
| AttributeError
| TypeError
| ValueError
| AssertionError (message : string)
| BadRequestError (message : string) (payload : option json)
| NotFoundError (message : string) (payload : option json).

(** The outcome of a call: a value, or an exception. *)
Inductive Result (A : Type) :=
| Ok (a : A)
| Raise (e : exn).

Arguments Ok {A} a.
Arguments Raise {A} e.

#[export] Instance Result_ret : MRet Result := λ A a, Ok a.

#[export] Instance Result_bind : MBind Result :=
  λ A B f r, match r with Ok a => f a | Raise e => Raise e end.

(** [d[key]] on a dictionary *)
Definition getitem (d : gmap string json) (key : string) : Result json :=
  match d !! key with
  | Some v => Ok v
  | None => Raise (KeyError key)
  end.

(** ** The collaborators

    [transaction.py], [utils.py], the pool and the wallet are used through
    these operations only; their classes [Transaction], [UnspentTxOut],
    [TransactionPool], [Wallet] and [Decimal] are the parameters.
    Transactions are compared by value. *)

Class Collaborators
    (Transaction UnspentTxOut TransactionPool Wallet Decimal : Type) := {
  (** [Transaction] of [transaction.py]: [==], [tx.get_id()] and the
      attribute [tx.id] *)
  Transaction_eq_dec :: EqDecision Transaction;
  get_id : Transaction → bytes;
  tx_id : Transaction → bytes;
  (** [Transaction.to_raw_list] and [Transaction.from_raw_list] *)
  to_raw_list : list Transaction → json;
  from_raw_list : json → Result (list Transaction);
  (** the attribute [address] of an [UnspentTxOut] *)
  address : UnspentTxOut → bytes;
  (** [Transaction.process_transactions(txs, unspent_tx_outs, block_index)],
      [None] when it rejects *)
  process_transactions :
    list Transaction → list UnspentTxOut → Z → option (list UnspentTxOut);
  (** [Transaction.coinbase(public_key, block_index)] *)
  coinbase : bytes → Z → Transaction;
  (** [TxOut.is_valid_address] *)
  is_valid_address : bytes → bool;
  (** [hex_to_bytes] and [bytes_to_hex] of [utils.py] *)
  hex_to_bytes : json → Result bytes;
  bytes_to_hex : bytes → string;
  (** the pool: its attribute [transactions] and its methods
      [add_transaction(tx, unspent_tx_outs)] and [update(unspent_tx_outs)],
      which change the pool *)
  pool_transactions : TransactionPool → list Transaction;
  pool_add_transaction :
    Transaction → list UnspentTxOut → TransactionPool → bool * TransactionPool;
  pool_update : list UnspentTxOut → TransactionPool → TransactionPool;
  (** the wallet: [get_public_key()], [get_balance(unspent_tx_outs)] and
      [create_transaction(receiver, amount, unspent_tx_outs, tx_pool)] *)
  wallet_get_public_key : Wallet → bytes;
  wallet_get_balance : Wallet → list UnspentTxOut → Decimal;
  wallet_create_transaction :
    Wallet → bytes → Decimal → list UnspentTxOut → TransactionPool →
    Result Transaction;
}.

(** ** [class Block] *)

Module Block.
Section Block.
Context `{Collaborators Transaction UnspentTxOut TransactionPool Wallet Decimal}.

Definition INT_SIZE : nat := 8.

Record t := mk {
  index : Z;
  previous_hash : option bytes;
  timestamp : datetime;
  data : list Transaction;
  difficulty : Z;
  nonce : Z;
  hash : bytes
}.

(** [n.to_bytes(Block.INT_SIZE, byteorder=Block.BYTE_ORDER)]: negative
    numbers and numbers that need more than eight bytes raise. *)
Definition to_bytes (n : Z) : Result bytes :=
  if (0 <=? n) && (n <? 2 ^ (8 * Z.of_nat INT_SIZE))
  then Ok (big_endian INT_SIZE n)
  else Raise OverflowError.

Definition calculate_hash (index : Z) (previous_hash : option bytes)
    (timestamp : datetime) (data : list Transaction)
    (difficulty nonce : Z) : Result bytes :=
  let hasher := hasher_new in
  b ← to_bytes index;
  let hasher := hasher_update hasher b in
  let hasher :=
    match previous_hash with
    | Some ph => hasher_update hasher ph
    | None => hasher
    end in
  let ts_int := timestamp_int timestamp in
  b ← to_bytes ts_int;
  let hasher := hasher_update hasher b in
  let hasher := fold_left (λ h tx, hasher_update h (get_id tx)) data hasher in
  b ← to_bytes difficulty;
  let hasher := hasher_update hasher b in
  b ← to_bytes nonce;
  let hasher := hasher_update hasher b in
  Ok (hasher_digest hasher).

(** The layout of the hashed message in words: the index on eight bytes,
    the previous hash when there is one, the whole seconds of the timestamp
    on eight bytes, the identifiers of the transactions in order, the
    difficulty and the nonce on eight bytes each. *)
Definition canonical_bytes (index : Z) (previous_hash : option bytes)
    (timestamp : datetime) (data : list Transaction)
    (difficulty nonce : Z) : bytes :=
  big_endian 8 index
  ++ from_option (λ ph, ph) [] previous_hash
  ++ big_endian 8 (timestamp_int timestamp)
  ++ concat (map get_id data)
  ++ big_endian 8 difficulty
  ++ big_endian 8 nonce.

(** [n] fits an unsigned integer of eight bytes. *)
Definition fits (n : Z) : Prop := 0 ≤ n < 2 ^ 64.

(** [Block.__init__] *)
Definition init (index : Z) (previous_hash : option bytes)
    (timestamp : datetime) (data : list Transaction)
    (difficulty nonce : Z) : Result t :=
  h ← calculate_hash index previous_hash timestamp data difficulty nonce;
  Ok (mk index previous_hash timestamp data difficulty nonce h).

Definition calculate_hash_for_block (self : t) : Result bytes :=
  calculate_hash (index self) (previous_hash self) (timestamp self)
                 (data self) (difficulty self) (nonce self).

(** [Block.__eq__] on two blocks: the seven attributes. *)
Definition eqb (self other : t) : bool :=
  bool_decide (index self = index other)
  && bool_decide (previous_hash self = previous_hash other)
  && bool_decide (timestamp self = timestamp other)
  && bool_decide (data self = data other)
  && bool_decide (difficulty self = difficulty other)
  && bool_decide (nonce self = nonce other)
  && bool_decide (hash self = hash other).

Definition hash_matches_difficulty (hash : bytes) (difficulty : Z) : bool :=
  let bits := bits_of hash in
  let required_prefix := repeat false (Z.to_nat difficulty) in
  startswith bits required_prefix.

(** The nonce [nonce] conforms: the hash of the fields with it can be
    computed and satisfies the difficulty. *)
Definition conforming (index : Z) (previous_hash : option bytes)
    (timestamp : datetime) (data : list Transaction)
    (difficulty nonce : Z) : bool :=
  match calculate_hash index previous_hash timestamp data difficulty nonce with
  | Ok hash => hash_matches_difficulty hash difficulty
  | Raise _ => false
  end.

(** [Block.find]: the loop runs at most [fuel] times; [None] when the fuel
    runs out before the loop returns or raises. *)
Fixpoint find_from (fuel : nat) (index : Z) (previous_hash : option bytes)
    (timestamp : datetime) (data : list Transaction)
    (difficulty nonce : Z) : option (Result t) :=
  match fuel with
  | O => None
  | S fuel' =>
      match calculate_hash index previous_hash timestamp data difficulty nonce with
      | Raise e => Some (Raise e)
      | Ok hash =>
          if hash_matches_difficulty hash difficulty
          then Some (init index previous_hash timestamp data difficulty nonce)
          else find_from fuel' index previous_hash timestamp data difficulty
                         (nonce + 1)
      end
  end.

Definition find (fuel : nat) (index : Z) (previous_hash : option bytes)
    (timestamp : datetime) (data : list Transaction)
    (difficulty : Z) : option (Result t) :=
  find_from fuel index previous_hash timestamp data difficulty 0.

Definition genesis_block : Result t :=
  let timestamp := fromtimestamp 1528359030 in
  init 0 None timestamp [] 0 0.

Definition has_valid_hash (self : t) : Result bool :=
  h ← calculate_hash_for_block self;
  if negb (bool_decide (h = hash self)) then Ok false
  else if negb (hash_matches_difficulty (hash self) (difficulty self)) then Ok false
  else Ok true.

Definition is_genesis (block : t) : Result bool :=
  g ← genesis_block;
  Ok (eqb block g).

(** [has_valid_structure]: the tests are on the types of the attributes,
    which the fields of [t] already have. *)
Definition has_valid_structure (self : t) : bool := true.

(** [is_valid_timestamp], with the reading [now] of the wall clock. *)
Definition is_valid_timestamp (now : datetime) (new_block previous_block : t) : bool :=
  total_seconds_lt (timestamp previous_block - timestamp new_block) 60
  && total_seconds_lt (timestamp new_block - now) 60.

Definition is_valid_next (now : datetime) (self next_block : t) : Result bool :=
  if negb (has_valid_structure next_block) then Ok false
  else if negb (bool_decide (index self + 1 = index next_block)) then Ok false
  else if negb (bool_decide (Some (hash self) = previous_hash next_block)) then Ok false
  else if negb (is_valid_timestamp now next_block self) then Ok false
  else
    v ← has_valid_hash next_block;
    if negb v then Ok false else Ok true.

Definition to_raw (self : t) : gmap string json :=
  list_to_map
    [ ("index", JInt (index self));
      ("previousHash",
        match previous_hash self with
        | Some ph => JStr (bytes_hex ph)
        | None => JNone
        end);
      ("timestamp", JInt (timestamp_int (timestamp self)));
      ("data", to_raw_list (data self));
      ("difficulty", JInt (difficulty self));
      ("nonce", JInt (nonce self));
      ("hash", JStr (bytes_hex (hash self))) ]%string.

(** The call [cls(index=..., ...)] of [from_raw]: the three numbers come
    straight from the raw object, and the constructor raises when it asks
    one that is not an [int] for its bytes. *)
Definition construct (index : json) (previous_hash : option bytes)
    (timestamp : datetime) (data : list Transaction)
    (difficulty nonce : json) : Result t :=
  match index with
  | JInt index =>
      _ ← to_bytes index;
      _ ← to_bytes (timestamp_int timestamp);
      match difficulty with
      | JInt difficulty =>
          _ ← to_bytes difficulty;
          match nonce with
          | JInt nonce => init index previous_hash timestamp data difficulty nonce
          | _ => Raise AttributeError
          end
      | _ => Raise AttributeError
      end
  | _ => Raise AttributeError
  end.

Definition from_raw (raw_obj : gmap string json) : Result t :=
  index ← getitem raw_obj "index";
  ph ← getitem raw_obj "previousHash";
  previous_hash ←
    match ph with
    | JNone => Ok None
    | _ => b ← hex_to_bytes ph; Ok (Some b)
    end;
  ts ← getitem raw_obj "timestamp";
  timestamp ←
    match ts with
    | JInt s => Ok (fromtimestamp s)
    | _ => Raise TypeError
    end;
  d ← getitem raw_obj "data";
  data ← from_raw_list d;
  difficulty ← getitem raw_obj "difficulty";
  nonce ← getitem raw_obj "nonce";
  construct index previous_hash timestamp data difficulty nonce.

End Block.

Arguments t : clear implicits.

End Block.

(** ** Objects handed to the chain by its callers

    [add_block] and [replace] test the class of what they are given.  An
    object is a [Block], or an object of a class unrelated to [Block]
    ([None], a number, a dictionary, a transaction ...); of the latter only
    the method [to_raw] matters: [Some r] when the object has one, which
    returns [r], and [None] when it has no such attribute. *)

Inductive pyobj {Transaction : Type} :=
| PyBlock (b : Block.t Transaction)
| PyOther (to_raw : option json).

(** The argument of [replace]: a list, or something that is not a list. *)
Inductive pyarg {Transaction : Type} :=
| PyList (l : list (pyobj (Transaction := Transaction)))
| PyNotList.

(** ** [class Blockchain] *)

Module Blockchain.
Section Blockchain.
Context `{Collaborators Transaction UnspentTxOut TransactionPool Wallet Decimal}.

Definition BLOCK_GENERATION_INTERVAL : Z := 10.
Definition DIFFICULTY_ADJUSTMENT_INTERVAL : Z := 10.

(** A call received by the P2P application. *)
Inductive broadcast :=
| BroadcastLatest (blocks : list (Block.t Transaction))
| BroadcastTransactionPool (pool : TransactionPool).

(** The attributes of a [Blockchain].  [p2p_application] is [None] until
    the application is attached; attached, it is represented by the calls
    it has received, oldest first. *)
Record t := mk {
  blocks : list (Block.t Transaction);
  p2p_application : option (list broadcast);
  tx_pool : TransactionPool;
  unspent_tx_outs : list UnspentTxOut
}.

(** A method of a [Blockchain]: from the state to the outcome and the
    state the call leaves. *)
Definition M (A : Type) : Type := t → Result A * t.

Definition ret {A} (a : A) : M A := λ self, (Ok a, self).
Definition raise {A} (e : exn) : M A := λ self, (Raise e, self).
Definition lift {A} (r : Result A) : M A := λ self, (r, self).
Definition get : M t := λ self, (Ok self, self).
Definition put (s : t) : M unit := λ _, (Ok tt, s).

Definition bind {A B} (m : M A) (f : A → M B) : M B :=
  λ self,
    match m self with
    | (Ok a, self') => f a self'
    | (Raise e, self') => (Raise e, self')
    end.

#[export] Instance M_ret : MRet M := @ret.
#[export] Instance M_bind : MBind M := λ A B f m, bind m f.

(** [Blockchain.__init__] *)
Definition init (tx_pool : TransactionPool) : Result t :=
  g ← Block.genesis_block;
  Ok (mk [g] None tx_pool []).

Definition get_latest (self : t) : Result (Block.t Transaction) :=
  match last (blocks self) with
  | Some b => Ok b
  | None => Raise IndexError
  end.

(** The loop of [validate_blocks] from position [i] on: [prev] is
    [blocks[i - 1]], absent when [i] is 0, and [now i] is what the clock
    shows when the block at [i] is checked. *)
Fixpoint validate_from (now : nat → datetime) (i : nat)
    (prev : option (Block.t Transaction)) (blocks : list pyobj)
    (unspent_tx_outs : list UnspentTxOut)
    : Result (option (list UnspentTxOut)) :=
  match blocks with
  | [] => Ok (Some unspent_tx_outs)
  | PyOther _ :: _ => Ok None
  | PyBlock block :: rest =>
      valid ←
        match prev with
        | None => Ok true
        | Some p => Block.is_valid_next (now i) p block
        end;
      if negb valid then Ok None
      else
        match process_transactions (Block.data block) unspent_tx_outs
                                   (Block.index block) with
        | None => Ok None
        | Some u => validate_from now (S i) (Some block) rest u
        end
  end.

(** [block == Block.genesis_block()] for the first element of the list *)
Definition is_genesis (o : pyobj) : Result bool :=
  match o with
  | PyBlock b => Block.is_genesis b
  | PyOther _ => g ← Block.genesis_block; Ok false
  end.

Definition validate_blocks (now : nat → datetime) (blocks : pyarg)
    : Result (option (list UnspentTxOut)) :=
  match blocks with
  | PyNotList => Ok None
  | PyList l =>
      match l with
      | [] => Raise IndexError
      | first :: _ =>
          g ← is_genesis first;
          if negb g then Ok None
          else validate_from now 0 None l []
      end
  end.

Definition sum (l : list Z) : Z := fold_left Z.add l 0.

Definition get_accumulated_difficulty (blocks : list (Block.t Transaction)) : Z :=
  sum (map (λ block, 2 ^ Block.difficulty block) blocks).

Definition broadcast_latest : M unit :=
  self ← get;
  match p2p_application self with
  | None => raise AttributeError
  | Some calls =>
      put (mk (blocks self) (Some (calls ++ [BroadcastLatest (blocks self)]))
              (tx_pool self) (unspent_tx_outs self))
  end.

Definition broadcast_transaction_pool : M unit :=
  self ← get;
  match p2p_application self with
  | None => raise AttributeError
  | Some calls =>
      put (mk (blocks self)
              (Some (calls ++ [BroadcastTransactionPool (tx_pool self)]))
              (tx_pool self) (unspent_tx_outs self))
  end.

(** [add_block]; [now] is the reading of the clock in [is_valid_timestamp]. *)
Definition add_block (now : datetime) (block : pyobj) : M bool :=
  match block with
  | PyOther to_raw =>
      match to_raw with
      | None => raise AttributeError
      | Some r => raise (BadRequestError "invalid block" (Some r))
      end
  | PyBlock block =>
      self ← get;
      latest ← lift (get_latest self);
      valid ← lift (Block.is_valid_next now latest block);
      if negb valid then ret false
      else
        match process_transactions (Block.data block) (unspent_tx_outs self)
                                   (Block.index block) with
        | None => ret false
        | Some u =>
            put (mk (blocks self ++ [block]) (p2p_application self)
                    (pool_update u (tx_pool self)) u);;
            ret true
        end
  end.

(** The blocks of a list of objects, as the comprehension of
    [get_accumulated_difficulty] reads them: the attribute [difficulty] of
    an object that is not a block is missing. *)
Fixpoint as_blocks (l : list pyobj) : Result (list (Block.t Transaction)) :=
  match l with
  | [] => Ok []
  | PyBlock b :: rest => bs ← as_blocks rest; Ok (b :: bs)
  | PyOther _ :: _ => Raise AttributeError
  end.

Definition replace (now : nat → datetime) (new_blocks : pyarg) : M bool :=
  unspent_tx_outs ← lift (validate_blocks now new_blocks);
  match new_blocks, unspent_tx_outs with
  | PyList l, Some u =>
      new ← lift (as_blocks l);
      self ← get;
      if get_accumulated_difficulty (blocks self) <? get_accumulated_difficulty new
      then
        put (mk new (p2p_application self) (pool_update u (tx_pool self)) u);;
        broadcast_latest;;
        ret true
      else ret false
  | _, _ => ret false
  end.

(** [self.blocks[i]] for a position [i] that is not negative *)
Definition blocks_at (self : t) (i : Z) : Result (Block.t Transaction) :=
  match blocks self !! Z.to_nat i with
  | Some b => Ok b
  | None => Raise IndexError
  end.

Definition get_adjusted_difficulty (self : t) : Result Z :=
  prev_adjusment_block ←
    blocks_at self
      (Z.max 0 (Z.of_nat (length (blocks self)) - DIFFICULTY_ADJUSTMENT_INTERVAL));
  latest_block ← get_latest self;
  let time_expected := BLOCK_GENERATION_INTERVAL * DIFFICULTY_ADJUSTMENT_INTERVAL in
  let time_taken :=
    Block.timestamp latest_block - Block.timestamp prev_adjusment_block in
  if total_seconds_lt time_taken (time_expected / 2)
  then Ok (Block.difficulty prev_adjusment_block + 1)
  else if total_seconds_gt time_taken (time_expected * 2)
  then Ok (Z.max (Block.difficulty prev_adjusment_block - 1) 0)
  else Ok (Block.difficulty prev_adjusment_block).

Definition get_difficulty (self : t) : Result Z :=
  latest_block ← get_latest self;
  if bool_decide (Block.index latest_block mod DIFFICULTY_ADJUSTMENT_INTERVAL = 0)
     && negb (bool_decide (Block.index latest_block = 0))
  then get_adjusted_difficulty self
  else Ok (Block.difficulty latest_block).

(** [generate_raw_next_block]: [fuel] bounds the search of [Block.find]
    ([None] when it runs out); [now] is the reading of the clock that
    stamps the block and [now'] the later one of [add_block]. *)
Definition generate_raw_next_block (fuel : nat) (now now' : datetime)
    (data : list Transaction) (self : t)
    : option (Result (option (Block.t Transaction)) * t) :=
  match get_latest self with
  | Raise e => Some (Raise e, self)
  | Ok previous_block =>
      let next_index := Block.index previous_block + 1 in
      let next_timestamp := now in
      match get_difficulty self with
      | Raise e => Some (Raise e, self)
      | Ok difficulty =>
          match Block.find fuel next_index (Some (Block.hash previous_block))
                           next_timestamp data difficulty with
          | None => None
          | Some (Raise e) => Some (Raise e, self)
          | Some (Ok next_block) =>
              Some ((added ← add_block now' (PyBlock next_block);
                     if added : bool
                     then broadcast_latest;; ret (Some next_block)
                     else ret None) self)
          end
      end
  end.

Definition generate_next_block (fuel : nat) (now now' : datetime)
    (wallet : Wallet) (self : t) : option (Result (option (Block.t Transaction)) * t) :=
  match get_latest self with
  | Raise e => Some (Raise e, self)
  | Ok latest =>
      let coinbase_tx :=
        coinbase (wallet_get_public_key wallet) (Block.index latest + 1) in
      let block_data := [coinbase_tx] ++ pool_transactions (tx_pool self) in
      generate_raw_next_block fuel now now' block_data self
  end.

(** The amount handed to [generate_next_with_transaction]: a [Decimal], or
    a raw value that is not one. *)
Inductive amount :=
| AmountDecimal (d : Decimal)
| AmountOther (v : json).

Definition generate_next_with_transaction (fuel : nat) (now now' : datetime)
    (wallet : Wallet) (receiver_address : bytes) (amount : amount) (self : t)
    : option (Result (option (Block.t Transaction)) * t) :=
  if negb (is_valid_address receiver_address) then
    let error_payload :=
      JDict {[ "address"%string := JStr (bytes_to_hex receiver_address) ]} in
    Some (Raise (BadRequestError "invalid address" (Some error_payload)), self)
  else
    match amount with
    | AmountOther v =>
        let error_payload := JDict {[ "amount"%string := v ]} in
        Some (Raise (BadRequestError "invalid amount" (Some error_payload)), self)
    | AmountDecimal amount =>
        match get_latest self with
        | Raise e => Some (Raise e, self)
        | Ok latest =>
            let coinbase_tx :=
              coinbase (wallet_get_public_key wallet) (Block.index latest + 1) in
            match wallet_create_transaction wallet receiver_address amount
                    (unspent_tx_outs self) (tx_pool self) with
            | Raise e => Some (Raise e, self)
            | Ok tx =>
                let block_data := [coinbase_tx; tx] in
                generate_raw_next_block fuel now now' block_data self
            end
        end
    end.

Definition handle_received_transaction (transaction : Transaction) : M bool :=
  self ← get;
  let '(added, pool) :=
    pool_add_transaction transaction (unspent_tx_outs self) (tx_pool self) in
  put (mk (blocks self) (p2p_application self) pool (unspent_tx_outs self));;
  ret added.

Definition send_transaction (wallet : Wallet) (receiver_address : bytes)
    (amount : Decimal) : M Transaction :=
  self ← get;
  tx ← lift (wallet_create_transaction wallet receiver_address amount
               (unspent_tx_outs self) (tx_pool self));
  let '(added, pool) :=
    pool_add_transaction tx (unspent_tx_outs self) (tx_pool self) in
  put (mk (blocks self) (p2p_application self) pool (unspent_tx_outs self));;
  (if added : bool
   then broadcast_transaction_pool
   else raise (BadRequestError
                 "invalid transaction or transaction is already in the pool"
                 None));;
  ret tx.

Definition unspent_tx_outs_for_address (self : t) (addr : bytes)
    : list UnspentTxOut :=
  filter (λ uTxO, address uTxO = addr) (unspent_tx_outs self).

Definition my_unspent_tx_outs (self : t) (wallet : Wallet) : list UnspentTxOut :=
  unspent_tx_outs_for_address self (wallet_get_public_key wallet).

Definition get_balance (self : t) (wallet : Wallet) : Decimal :=
  wallet_get_balance wallet (unspent_tx_outs self).

Definition get_block_with_hash (self : t) (hash : bytes) : Result (Block.t Transaction) :=
  let block :=
    List.find (λ block, bool_decide (Block.hash block = hash)) (blocks self) in
  match block with
  | None =>
      Raise (NotFoundError "block not found"
               (Some (JDict {[ "hash"%string := JStr (bytes_to_hex hash) ]})))
  | Some block => Ok block
  end.

Definition get_transaction_with_id (self : t) (transaction_id : bytes)
    : Result Transaction :=
  let transaction :=
    List.find (λ tx, bool_decide (tx_id tx = transaction_id))
              (concat (map Block.data (blocks self))) in
  match transaction with
  | None =>
      Raise (NotFoundError "transaction not found"
               (Some (JDict {[ "id"%string := JStr (bytes_to_hex transaction_id) ]})))
  | Some transaction => Ok transaction
  end.

Definition from_raw (raw_obj : json) : Result t :=
  Raise (AssertionError "Blockchain can not be constructed from raw objects.").

(** The left fold of [process_transactions] over the data and the indexes
    of [blocks], from the unspent outputs [unspent]; [None] as soon as a
    block is rejected. *)
Definition fold_transactions (blocks : list (Block.t Transaction))
    (unspent : list UnspentTxOut) : option (list UnspentTxOut) :=
  fold_left
    (λ acc block,
       u ← acc; process_transactions (Block.data block) u (Block.index block))
    blocks (Some unspent).

(** [next_block] follows [self]: what [is_valid_next] checks, the clock
    apart. *)
Definition follows (self next_block : Block.t Transaction) : Prop :=
  Block.index next_block = Block.index self + 1
  ∧ Block.previous_hash next_block = Some (Block.hash self)
  ∧ Block.timestamp self - Block.timestamp next_block < seconds 60
  ∧ Block.has_valid_hash next_block = Ok true.

(** Each block of [rest] follows the one before it, the first one [prev]. *)
Fixpoint chained (prev : Block.t Transaction) (rest : list (Block.t Transaction)) : Prop :=
  match rest with
  | [] => True
  | block :: rest' => follows prev block ∧ chained block rest'
  end.

(** The application attaches itself after the construction:
    [blockchain.p2p_application = app]. *)
Definition attach (self : t) : t :=
  mk (blocks self) (Some []) (tx_pool self) (unspent_tx_outs self).

(** The difficulty of the next block as the specification words it: on a
    tip of height [n > 0] that is a multiple of the adjustment interval,
    the reference block is the one at height [n] minus the interval (the
    first block when the chain is shorter), and the difficulty goes up by
    one when less than 50 seconds separate it from the tip, down by one
    (not below 0) when more than 200 do, and stays otherwise; on any other
    tip it is the difficulty of the tip. *)
Definition specified_difficulty (self : t) : Result Z :=
  tip ← get_latest self;
  let n := Block.index tip in
  if (0 <? n) && (n mod DIFFICULTY_ADJUSTMENT_INTERVAL =? 0) then
    reference ← blocks_at self (Z.max 0 (n - DIFFICULTY_ADJUSTMENT_INTERVAL));
    let actual := Block.timestamp tip - Block.timestamp reference in
    if actual <? seconds 50 then Ok (Block.difficulty reference + 1)
    else if seconds 200 <? actual then Ok (Z.max (Block.difficulty reference - 1) 0)
    else Ok (Block.difficulty reference)
  else Ok (Block.difficulty tip).

(** The retargeting of [get_adjusted_difficulty] from the reference block
    [reference] and the tip [tip]. *)
Definition retarget (reference tip : Block.t Transaction) : Z :=
  if Block.timestamp tip - Block.timestamp reference <? seconds 50
  then Block.difficulty reference + 1
  else if seconds 200 <? Block.timestamp tip - Block.timestamp reference
  then Z.max (Block.difficulty reference - 1) 0
  else Block.difficulty reference.

(** Each block of [rest], checked at the positions [i], [i + 1] ... of a
    candidate, is stamped less than 60 seconds after the clock. *)
Fixpoint on_time (now : nat → datetime) (i : nat)
    (rest : list (Block.t Transaction)) : Prop :=
  match rest with
  | [] => True
  | block :: rest' =>
      Block.timestamp block - now i < seconds 60 ∧ on_time now (S i) rest'
  end.

(** The chain starts with the genesis block and each block follows the one
    before it. *)
Definition well_formed (self : t) : Prop :=
  ∃ g rest,
    Block.genesis_block = Ok g ∧ blocks self = g :: rest ∧ chained g rest.

(** The unspent outputs are those of the blocks of the chain. *)
Definition ledger_consistent (self : t) : Prop :=
  fold_transactions (blocks self) [] = Some (unspent_tx_outs self).

(** The block [b] is appended to the chain of [self], with the unspent
    outputs [u] that processing it gives. *)
Definition appended (self self' : t) : Prop :=
  ∃ now latest b u,
    get_latest self = Ok latest
    ∧ Block.is_valid_next now latest b = Ok true
    ∧ process_transactions (Block.data b) (unspent_tx_outs self)
        (Block.index b) = Some u
    ∧ blocks self' = blocks self ++ [b]
    ∧ unspent_tx_outs self' = u.

(** The chain of [self] is swapped for a validated, strictly heavier one. *)
Definition swapped (self self' : t) : Prop :=
  ∃ now u,
    validate_blocks now
      (PyList (map PyBlock (blocks self'))) = Ok (Some u)
    ∧ get_accumulated_difficulty (blocks self)
      < get_accumulated_difficulty (blocks self')
    ∧ unspent_tx_outs self' = u.

Definition same_chain (self self' : t) : Prop :=
  blocks self' = blocks self
  ∧ unspent_tx_outs self' = unspent_tx_outs self.

(** What can happen to a chain: the application attaches itself, the P2P
    layer, which shares the pool, changes the pool, or a method that
    changes the state is called and returns or raises. *)
Inductive step : t → t → Prop :=
| step_attach self :
    step self (attach self)
| step_pool self pool :
    step self (mk (blocks self) (p2p_application self) pool (unspent_tx_outs self))
| step_add_block now block self r self' :
    add_block now block self = (r, self') → step self self'
| step_replace now new_blocks self r self' :
    replace now new_blocks self = (r, self') → step self self'
| step_generate_raw_next_block fuel now now' data self r self' :
    generate_raw_next_block fuel now now' data self = Some (r, self') →
    step self self'
| step_generate_next_block fuel now now' wallet self r self' :
    generate_next_block fuel now now' wallet self = Some (r, self') →
    step self self'
| step_generate_next_with_transaction fuel now now' wallet receiver a self r self' :
    generate_next_with_transaction fuel now now' wallet receiver a self
    = Some (r, self') →
    step self self'
| step_send_transaction wallet receiver a self r self' :
    send_transaction wallet receiver a self = (r, self') → step self self'
| step_handle_received_transaction tx self r self' :
    handle_received_transaction tx self = (r, self') → step self self'.

(** The states a chain created by [Blockchain(tx_pool)] can be in. *)
Definition reachable (self : t) : Prop :=
  ∃ tx_pool self0, init tx_pool = Ok self0 ∧ rtc step self0 self.

End Blockchain.
End Blockchain.

(** ** A small ledger

    An implementation of the collaborators on which the definitions run: a
    transaction is a number, its identifier the 32 bytes of that number;
    the ledger keeps the transactions it has seen and rejects a block that
    brings one back; the pool keeps the pending ones. *)

Module Ledger.

Definition hex_value (c : ascii) : option Z :=
  let n := Z.of_nat (nat_of_ascii c) in
  if (48 <=? n) && (n <=? 57) then Some (n - 48)
  else if (97 <=? n) && (n <=? 102) then Some (n - 87)
  else if (65 <=? n) && (n <=? 70) then Some (n - 55)
  else None.

Fixpoint unhex (s : string) : option bytes :=
  match s with
  | EmptyString => Some []
  | String a (String b rest) =>
      hi ← hex_value a;
      lo ← hex_value b;
      bs ← unhex rest;
      Some (byte_of_Z (16 * hi + lo) :: bs)
  | String _ EmptyString => None
  end.

Definition decode (v : json) : Result bytes :=
  match v with
  | JStr s =>
      match unhex s with
      | Some bs => Ok bs
      | None => Raise ValueError
      end
  | _ => Raise TypeError
  end.

Definition raw_list (txs : list Z) : json := JList (map JInt txs).

Fixpoint from_raws (l : list json) : Result (list Z) :=
  match l with
  | [] => Ok []
  | JInt n :: rest => txs ← from_raws rest; Ok (n :: txs)
  | _ :: _ => Raise TypeError
  end.

Definition parse_list (v : json) : Result (list Z) :=
  match v with
  | JList l => from_raws l
  | _ => Raise TypeError
  end.

Definition process (txs unspent : list Z) (block_index : Z)
    : option (list Z) :=
  if forallb (λ tx, negb (bool_decide (tx ∈ unspent))) txs
  then Some (unspent ++ txs)
  else None.

Definition add (tx : Z) (unspent pool : list Z) : bool * list Z :=
  if bool_decide (tx ∈ unspent) || bool_decide (tx ∈ pool)
  then (false, pool)
  else (true, pool ++ [tx]).

Definition prune (unspent pool : list Z) : list Z :=
  filter (λ tx, tx ∉ unspent) pool.

#[global] Instance collaborators : Collaborators Z Z (list Z) bytes Z := {|
  get_id := big_endian 32;
  tx_id := big_endian 32;
  to_raw_list := raw_list;
  from_raw_list := parse_list;
  address := big_endian 32;
  process_transactions := process;
  coinbase := λ _ block_index, - block_index;
  is_valid_address := λ a, bool_decide (length a = 32%nat);
  hex_to_bytes := decode;
  bytes_to_hex := bytes_hex;
  pool_transactions := λ pool, pool;
  pool_add_transaction := add;
  pool_update := prune;
  wallet_get_public_key := λ w, w;
  wallet_get_balance := λ _ unspent, Z.of_nat (length unspent);
  wallet_create_transaction := λ _ _ amount _ _, Ok amount;
|}.

Abbreviation block := (Block.t Z).
Abbreviation chain := (@Blockchain.t Z Z (list Z)).

(** The block of a construction that succeeded (an empty block otherwise). *)
Definition built (r : Result block) : block :=
  match r with
  | Ok b => b
  | Raise _ => Block.mk 0 None 0 [] 0 0 []
  end.

(** A block stamped half a second after a whole second, and the block read
    back from its raw form. *)
Definition fractional_block : block :=
  Eval vm_compute in built (Block.init 1 None 1528359031500000 [7] 0 0).

Definition read_back : block :=
  Eval vm_compute in built (Block.from_raw (Block.to_raw fractional_block)).

(** A block stamped on a whole second, with a previous hash. *)
Definition whole_block : block :=
  Eval vm_compute in
    built (Block.init 1 (Some [Byte.x24; Byte.x9a]) 1528359031000000 [7] 0 3).

(** The genesis block, and a chain that holds it, with an empty pool and
    the application attached. *)
Definition genesis : block := Eval vm_compute in built Block.genesis_block.

Definition started : chain :=
  Blockchain.mk [genesis] (Some []) [] [].

(** The same chain before the application attaches itself. *)
Definition unattached : chain := Blockchain.mk [genesis] None [] [].

(** A block of difficulty 1 on the genesis block, ten seconds after it,
    with the nonce that [find] gives it, and a block of difficulty 0 at the
    same place. *)
Definition heavy_block : block :=
  Eval vm_compute in
    built (default (Raise IndexError)
             (Block.find 64 1 (Some (Block.hash genesis)) 1528359040000000 [] 1)).

Definition light_block : block :=
  Eval vm_compute in
    built (Block.init 1 (Some (Block.hash genesis)) 1528359040000000 [11] 0 0).

(** Block 1 with one transaction, mined for five leading zero bits. *)
Definition mined_block : block :=
  Eval vm_compute in
    built (default (Raise IndexError)
             (Block.find 100 1 None 1528359030500000 [5] 5)).

(** The first block mined on [started], at the time of [heavy_block], and
    the chain that holds it. *)
Definition first_block : block :=
  Eval vm_compute in
    built (Block.init 1 (Some (Block.hash genesis)) 1528359040000000 [] 0 0).

Definition after_first_block : chain :=
  Blockchain.mk [genesis; first_block]
    (Some [Blockchain.BroadcastLatest [genesis; first_block]]) [] [].

(** [mine n now self]: [n] calls of [generate_raw_next_block] with no
    transactions, the first at the time [now] and each one a second after
    the one before. *)
Fixpoint mine (n : nat) (now : datetime) (self : chain)
    : option chain :=
  match n with
  | O => Some self
  | S k =>
      match Blockchain.generate_raw_next_block 1 now now [] self with
      | Some (Ok (Some _), self') => mine k (now + seconds 1) self'
      | _ => None
      end
  end.

(** A chain with an empty pool and the application attached. *)
Definition fresh : option chain :=
  match Blockchain.init [] with
  | Ok self => Some (Blockchain.attach self)
  | Raise _ => None
  end.

(** The chain after ten blocks mined one second apart, the first one a
    thousand seconds after the genesis block. *)
Definition ten_blocks : chain :=
  Eval vm_compute in default started (mine 10 1528360030000000 started).

(** Its tip. *)
Definition tenth_block : block :=
  Eval vm_compute in built (Blockchain.get_latest ten_blocks).

End Ledger.

(** * Properties *)

(** ** The error monad *)

Lemma bind_Ok {A B} (r : Result A) (f : A → Result B) (b : B) :
  r ≫= f = Ok b ↔ ∃ a, r = Ok a ∧ f a = Ok b.
Proof.
  destruct r as [a|e]; simpl; split.
  - intros Hf. exists a. auto.
  - intros (a' & Ha & Hf). congruence.
  - discriminate.
  - intros (a' & Ha & _). discriminate.
Qed.

Lemma bind_Raise {A B} (r : Result A) (f : A → Result B) (e : exn) :
  r ≫= f = Raise e ↔ r = Raise e ∨ ∃ a, r = Ok a ∧ f a = Raise e.
Proof.
  destruct r as [a|e']; simpl; split.
  - intros Hf. right. exists a. auto.
  - intros [Hr | (a' & Ha & Hf)]; congruence.
  - intros Hr. left. congruence.
  - intros [Hr | (a' & Ha & _)]; congruence.
Qed.

(** ** Bytes and integers *)

Lemma byte_to_Z_range (b : byte) : 0 ≤ byte_to_Z b < 256.
Proof. destruct b; vm_compute; split; congruence. Qed.

Lemma byte_to_of_Z (z : Z) : byte_to_Z (byte_of_Z z) = z mod 256.
Proof.
  unfold byte_to_Z, byte_of_Z.
  assert (Hr : 0 ≤ z mod 256 < 256) by (apply Z.mod_pos_bound; lia).
  destruct (Byte.of_N (Z.to_N (z mod 256))) as [b|] eqn:Hb.
  - apply Byte.to_of_N in Hb. rewrite Hb. lia.
  - apply Byte.of_N_None_iff in Hb. lia.
Qed.

Lemma length_big_endian (n : nat) (z : Z) : length (big_endian n z) = n.
Proof.
  revert z. induction n as [|n IH]; intros z; simpl; [done|].
  rewrite length_app, IH. simpl. lia.
Qed.

Lemma word_of_bytes_app (acc : Z) (bs : bytes) (b : byte) :
  SHA256.word_of_bytes acc (bs ++ [b])
  = SHA256.word_of_bytes acc bs * 256 + byte_to_Z b.
Proof. revert acc. induction bs as [|c bs IH]; intros acc; simpl; auto. Qed.

(** The bytes of [big_endian n z] are the base-256 digits of [z]. *)
Lemma big_endian_value (n : nat) (z : Z) :
  0 ≤ z → SHA256.word_of_bytes 0 (big_endian n z) = z mod 256 ^ Z.of_nat n.
Proof.
  revert z. induction n as [|n IH]; intros z Hz.
  - simpl. rewrite Z.mod_1_r. done.
  - cbn [big_endian]. rewrite word_of_bytes_app, IH, byte_to_of_Z.
    + rewrite Z.shiftr_div_pow2 by lia. change (2 ^ 8) with 256.
      rewrite Nat2Z.inj_succ, Z.pow_succ_r by lia.
      rewrite Z.rem_mul_r by lia. lia.
    + apply Z.shiftr_nonneg. exact Hz.
Qed.

(** ** SHA-256 on known messages *)

(** The digests that [hashlib.sha256] gives for the empty message, for
    [b'abc'] and for seventy times [b'a'], which takes two blocks. *)
Lemma digest_vectors :
  bytes_hex (SHA256.digest [])
  = "e3b0c44298fc1c149afbf4c8996fb92427ae41e4649b934ca495991b7852b855"%string
  ∧ bytes_hex (SHA256.digest [Byte.x61; Byte.x62; Byte.x63])
    = "ba7816bf8f01cfea414140de5dae2223b00361a396177a9cb410ff61f20015ad"%string
  ∧ bytes_hex (SHA256.digest (repeat Byte.x61 70))
    = "6bd5e5034855a11241f0dee8fc72850ffd9955b28347a86428b5fa19119f6ad0"%string.
Proof. repeat apply conj; vm_compute; reflexivity. Qed.

(** ** Hashing a block *)

Section BlockFacts.
Context `{Collaborators Transaction UnspentTxOut TransactionPool Wallet Decimal}.

Lemma to_bytes_Ok (n : Z) (bs : bytes) :
  Block.to_bytes n = Ok bs ↔ Block.fits n ∧ bs = big_endian 8 n.
Proof.
  unfold Block.to_bytes, Block.fits, Block.INT_SIZE.
  change (2 ^ (8 * Z.of_nat 8)) with (2 ^ 64).
  destruct (0 <=? n) eqn:H0; destruct (n <? 2 ^ 64) eqn:H1; simpl;
    split; try discriminate; try (intros [? ?]; lia).
  - intros [= <-]. split; [lia | done].
  - intros [_ ->]. done.
Qed.

Lemma to_bytes_fits (n : Z) :
  Block.fits n → Block.to_bytes n = Ok (big_endian 8 n).
Proof. intros Hn. apply to_bytes_Ok. auto. Qed.

Lemma to_bytes_Raise (n : Z) (e : exn) :
  Block.to_bytes n = Raise e ↔ ¬ Block.fits n ∧ e = OverflowError.
Proof.
  unfold Block.to_bytes, Block.fits, Block.INT_SIZE.
  change (2 ^ (8 * Z.of_nat 8)) with (2 ^ 64).
  destruct (0 <=? n) eqn:H0; destruct (n <? 2 ^ 64) eqn:H1; simpl;
    split; try discriminate; try (intros [? ?]; lia);
    try (intros [= <-]; split; [lia | done]); intros [_ ->]; done.
Qed.

Lemma update_ids (data : list Transaction) (h : hasher) :
  fold_left (λ h tx, hasher_update h (get_id tx)) data h
  = h ++ concat (map get_id data).
Proof.
  revert h. induction data as [|tx data IH]; intros h; simpl.
  - by rewrite app_nil_r.
  - rewrite IH. unfold hasher_update. by rewrite <- app_assoc.
Qed.

Lemma calculate_hash_fits index ph ts data d n :
  Block.fits index → Block.fits (timestamp_int ts) → Block.fits d → Block.fits n →
  Block.calculate_hash index ph ts data d n
  = Ok (SHA256.digest (Block.canonical_bytes index ph ts data d n)).
Proof.
  intros Hi Ht Hd Hn. unfold Block.calculate_hash.
  rewrite !to_bytes_fits by assumption. simpl.
  rewrite update_ids. unfold hasher_digest, hasher_update, hasher_new.
  unfold Block.canonical_bytes. f_equal. f_equal.
  destruct ph as [ph|]; simpl; by rewrite <- ?app_assoc.
Qed.

Lemma calculate_hash_Ok index ph ts data d n h :
  Block.calculate_hash index ph ts data d n = Ok h →
  Block.fits index ∧ Block.fits (timestamp_int ts) ∧ Block.fits d ∧ Block.fits n.
Proof.
  unfold Block.calculate_hash. intros Hh.
  apply bind_Ok in Hh as (b1 & H1 & Hh). apply bind_Ok in Hh as (b2 & H2 & Hh).
  apply bind_Ok in Hh as (b3 & H3 & Hh). apply bind_Ok in Hh as (b4 & H4 & Hh).
  apply to_bytes_Ok in H1, H2, H3, H4. tauto.
Qed.

Lemma calculate_hash_Raise index ph ts data d n e :
  Block.calculate_hash index ph ts data d n = Raise e → e = OverflowError.
Proof.
  unfold Block.calculate_hash. intros Hh.
  repeat (apply bind_Raise in Hh as [Hh | (? & _ & Hh)];
          [apply to_bytes_Raise in Hh; tauto|]).
  discriminate.
Qed.


End BlockFacts.

(** ** Construction, mining and the timestamp check *)

Section BlockConstruction.
Context `{Collaborators Transaction UnspentTxOut TransactionPool Wallet Decimal}.

Lemma init_Ok index ph ts data d n b :
  Block.init index ph ts data d n = Ok b ↔
  ∃ h, Block.calculate_hash index ph ts data d n = Ok h
       ∧ b = Block.mk index ph ts data d n h.
Proof.
  unfold Block.init. rewrite bind_Ok. split.
  - intros (h & Hh & [= <-]). eauto.
  - intros (h & Hh & ->). eauto.
Qed.

Lemma init_hash index ph ts data d n b :
  Block.init index ph ts data d n = Ok b →
  Block.calculate_hash_for_block b = Ok (Block.hash b).
Proof. intros (h & Hh & ->)%init_Ok. exact Hh. Qed.

Lemma construct_Ok index ph ts data d n b :
  Block.construct index ph ts data d n = Ok b →
  ∃ i d' n', index = JInt i ∧ d = JInt d' ∧ n = JInt n'
             ∧ Block.init i ph ts data d' n' = Ok b.
Proof.
  unfold Block.construct. intros Hb.
  destruct index as [|i| | |]; try discriminate.
  apply bind_Ok in Hb as (? & _ & Hb). apply bind_Ok in Hb as (? & _ & Hb).
  destruct d as [|d'| | |]; try discriminate.
  apply bind_Ok in Hb as (? & _ & Hb).
  destruct n as [|n'| | |]; try discriminate.
  eauto 10.
Qed.

Lemma from_raw_Ok raw b :
  Block.from_raw raw = Ok b →
  ∃ i ph ts data d n, Block.init i ph ts data d n = Ok b.
Proof.
  unfold Block.from_raw. intros Hb.
  repeat (apply bind_Ok in Hb as (? & _ & Hb)).
  apply construct_Ok in Hb as (i & d & n & _ & _ & _ & Hb). eauto 10.
Qed.

Lemma has_valid_hash_consistent b :
  Block.calculate_hash_for_block b = Ok (Block.hash b) →
  Block.has_valid_hash b
  = Ok (Block.hash_matches_difficulty (Block.hash b) (Block.difficulty b)).
Proof.
  intros Hb. unfold Block.has_valid_hash. rewrite Hb. simpl.
  rewrite bool_decide_eq_true_2 by done. simpl.
  by destruct (Block.hash_matches_difficulty _ _).
Qed.

(** C10: a block built by the constructor stores the hash of its six other
    fields; so does a block read by [from_raw], which never looks at the
    entry [hash] of the raw object: such a block passes the comparison of
    [has_valid_hash], and only the difficulty decides. *)
Theorem constructed_blocks_store_their_hash :
  (∀ index ph ts data d n b,
     Block.init index ph ts data d n = Ok b →
     Block.calculate_hash_for_block b = Ok (Block.hash b))
  ∧ (∀ raw b,
       Block.from_raw raw = Ok b →
       Block.calculate_hash_for_block b = Ok (Block.hash b)
       ∧ Block.has_valid_hash b
         = Ok (Block.hash_matches_difficulty (Block.hash b) (Block.difficulty b)))
  ∧ (∀ (raw : gmap string json) (v : json),
       Block.from_raw (<["hash"%string := v]> raw) = Block.from_raw raw
       ∧ Block.from_raw (delete "hash"%string raw) = Block.from_raw raw).
Proof.
  split; [|split].
  - intros *. apply init_hash.
  - intros raw b (i & ph & ts & data & d & n & Hb)%from_raw_Ok.
    apply init_hash in Hb. split; [done|]. by apply has_valid_hash_consistent.
  - intros raw v. unfold Block.from_raw, getitem.
    rewrite !lookup_insert_ne, !lookup_delete_ne by done. done.
Qed.

End BlockConstruction.

Section Mining.
Context `{Collaborators Transaction UnspentTxOut TransactionPool Wallet Decimal}.
Implicit Types (index difficulty nonce : Z) (ph : option bytes)
  (ts : datetime) (data : list Transaction).

Lemma conforming_fits index ph ts data difficulty nonce :
  Block.conforming index ph ts data difficulty nonce = true →
  Block.fits index ∧ Block.fits (timestamp_int ts) ∧ Block.fits difficulty
  ∧ Block.fits nonce.
Proof.
  unfold Block.conforming.
  destruct (Block.calculate_hash _ _ _ _ _ _) as [h|e] eqn:Hh; [|discriminate].
  intros _. by eapply calculate_hash_Ok.
Qed.

(** One turn of the loop of [find] at a nonce that can be hashed. *)
Lemma find_from_step fuel index ph ts data difficulty nonce :
  Block.fits index → Block.fits (timestamp_int ts) → Block.fits difficulty →
  Block.fits nonce →
  Block.find_from (S fuel) index ph ts data difficulty nonce
  = if Block.conforming index ph ts data difficulty nonce
    then Some (Block.init index ph ts data difficulty nonce)
    else Block.find_from fuel index ph ts data difficulty (nonce + 1).
Proof.
  intros Hi Ht Hd Hn. simpl. unfold Block.conforming.
  by rewrite calculate_hash_fits.
Qed.

(** From [start] on, the loop stops at the first conforming nonce, provided
    one exists at or after [start]. *)
Lemma find_from_least (k : nat) : ∀ index ph ts data difficulty start,
  0 ≤ start →
  Block.conforming index ph ts data difficulty (start + Z.of_nat k) = true →
  ∃ m b,
    start ≤ m ≤ start + Z.of_nat k
    ∧ Block.conforming index ph ts data difficulty m = true
    ∧ (∀ j, start ≤ j < m → Block.conforming index ph ts data difficulty j = false)
    ∧ Block.init index ph ts data difficulty m = Ok b
    ∧ ∀ fuel, (Z.to_nat (m - start) < fuel)%nat →
        Block.find_from fuel index ph ts data difficulty start = Some (Ok b).
Proof.
  induction k as [|k IH]; intros index ph ts data difficulty start Hs Hk.
  - rewrite Z.add_0_r in Hk.
    pose proof (conforming_fits _ _ _ _ _ _ Hk) as (Hi & Ht & Hd & Hn).
    pose proof (calculate_hash_fits index ph ts data difficulty start Hi Ht Hd Hn) as Hh.
    exists start, (Block.mk index ph ts data difficulty start
                     (SHA256.digest (Block.canonical_bytes index ph ts data difficulty start))).
    split; [lia|]. split; [done|]. split; [intros; lia|].
    split; [apply init_Ok; eauto|].
    intros [|fuel] Hf; [lia|].
    rewrite find_from_step, Hk by assumption.
    f_equal. apply init_Ok. eauto.
  - destruct (Block.conforming index ph ts data difficulty start) eqn:Hc.
    + pose proof (conforming_fits _ _ _ _ _ _ Hc) as (Hi & Ht & Hd & Hn).
      pose proof (calculate_hash_fits index ph ts data difficulty start Hi Ht Hd Hn) as Hh.
      exists start, (Block.mk index ph ts data difficulty start
                       (SHA256.digest (Block.canonical_bytes index ph ts data difficulty start))).
      split; [lia|]. split; [done|]. split; [intros; lia|].
      split; [apply init_Ok; eauto|].
      intros [|fuel] Hf; [lia|].
      rewrite find_from_step, Hc by assumption.
      f_equal. apply init_Ok. eauto.
    + pose proof (conforming_fits _ _ _ _ _ _ Hk) as (Hi & Ht & Hd & Hn).
      destruct (IH index ph ts data difficulty (start + 1)) as (m & b & Hm & Hcm & Hlt & Hb & Hfind).
      { lia. }
      { rewrite <- Hk. f_equal. lia. }
      exists m, b. split; [lia|]. split; [done|]. split.
      { intros j Hj. destruct (decide (j = start)) as [->|]; [done|]. apply Hlt. lia. }
      split; [done|].
      intros [|fuel] Hf; [lia|].
      rewrite find_from_step, Hc; try assumption.
      * apply Hfind. lia.
      * unfold Block.fits in *. lia.
Qed.

(** C9: when some nonce conforms, [find] returns, given enough turns of its
    loop, the block built with the least conforming nonce, whatever the
    number of turns allowed beyond that. *)
Theorem find_least_nonce index ph ts data difficulty n :
  0 ≤ n →
  Block.conforming index ph ts data difficulty n = true →
  ∃ m b,
    0 ≤ m ≤ n
    ∧ Block.conforming index ph ts data difficulty m = true
    ∧ (∀ j, 0 ≤ j < m → Block.conforming index ph ts data difficulty j = false)
    ∧ Block.init index ph ts data difficulty m = Ok b
    ∧ Block.nonce b = m
    ∧ ∀ fuel, (Z.to_nat m < fuel)%nat →
        Block.find fuel index ph ts data difficulty = Some (Ok b).
Proof.
  intros Hn Hc.
  destruct (find_from_least (Z.to_nat n) index ph ts data difficulty 0)
    as (m & b & Hm & Hcm & Hlt & Hb & Hfind); [lia| |].
  { rewrite Z2Nat.id by lia. exact Hc. }
  exists m, b. split; [lia|]. split; [done|]. split; [done|]. split; [done|].
  split.
  - apply init_Ok in Hb as (h & _ & ->). done.
  - intros fuel Hf. apply Hfind. by rewrite Z.sub_0_r.
Qed.

End Mining.

(** Mining block 1 on the genesis block of the small ledger with five
    leading zero bits: nonce 10 conforms, and [find] returns a block. *)
Lemma find_least_nonce_witness :
  0 ≤ 10
  ∧ Block.conforming 1 None 1528359030500000 [5] 5 10 = true
  ∧ ∃ m b,
      0 ≤ m ≤ 10
      ∧ Block.conforming 1 None 1528359030500000 [5] 5 m = true
      ∧ (∀ j, 0 ≤ j < m →
           Block.conforming 1 None 1528359030500000 [5] 5 j = false)
      ∧ Block.init 1 None 1528359030500000 [5] 5 m = Ok b
      ∧ Block.nonce b = m
      ∧ ∀ fuel, (Z.to_nat m < fuel)%nat →
          Block.find fuel 1 None 1528359030500000 [5] 5
          = Some (Ok b).
Proof.
  assert (H0 : 0 ≤ 10) by lia.
  assert (H1 : Block.conforming
                 1 None 1528359030500000 [5] 5 10 = true)
    by (vm_compute; reflexivity).
  split; [exact H0|]. split; [exact H1|].
  exact (find_least_nonce
           1 None 1528359030500000 [5] 5 10 H0 H1).
Defined.

(** ** The timestamp check *)

Section Timestamp.
Context {Transaction : Type}.
Implicit Types new_block previous_block : Block.t Transaction.

Lemma is_valid_timestamp_iff now new_block previous_block :
  Block.is_valid_timestamp now new_block previous_block = true
  ↔ Block.timestamp previous_block - Block.timestamp new_block < seconds 60
    ∧ Block.timestamp new_block - now < seconds 60.
Proof.
  unfold Block.is_valid_timestamp, total_seconds_lt.
  rewrite andb_true_iff, !Z.ltb_lt. done.
Qed.

(** C4, amended: the check holds exactly when the previous block is less
    than 60 seconds after the candidate and the candidate is less than 60
    seconds after the clock, both strictly: a candidate exactly 60 seconds
    before the previous block, or exactly 60 seconds after the clock, is
    rejected, whereas one exactly 60 seconds after the previous block passes
    the first comparison and one exactly 60 seconds before the clock passes
    the second. *)
Theorem is_valid_timestamp_strict now new_block previous_block :
  (Block.is_valid_timestamp now new_block previous_block = true
   ↔ Block.timestamp previous_block - Block.timestamp new_block < seconds 60
     ∧ Block.timestamp new_block - now < seconds 60)
  ∧ (Block.timestamp new_block = Block.timestamp previous_block - seconds 60 →
     Block.is_valid_timestamp now new_block previous_block = false)
  ∧ (Block.timestamp new_block = now + seconds 60 →
     Block.is_valid_timestamp now new_block previous_block = false)
  ∧ (Block.timestamp new_block = Block.timestamp previous_block + seconds 60 →
     Block.is_valid_timestamp now new_block previous_block
     = total_seconds_lt (Block.timestamp new_block - now) 60)
  ∧ (Block.timestamp new_block = now - seconds 60 →
     Block.is_valid_timestamp now new_block previous_block
     = total_seconds_lt (Block.timestamp previous_block - Block.timestamp new_block) 60).
Proof.
  split; [apply is_valid_timestamp_iff|].
  unfold Block.is_valid_timestamp, total_seconds_lt, seconds.
  repeat split; intros ->.
  - apply andb_false_iff. left. apply Z.ltb_ge. lia.
  - apply andb_false_iff. right. apply Z.ltb_ge. lia.
  - replace (_ - _ <? 60 * 1000000) with true; [done|].
    symmetry. apply Z.ltb_lt. lia.
  - rewrite andb_comm. replace (_ - _ - now <? 60 * 1000000) with true; [done|].
    symmetry. apply Z.ltb_lt. lia.
Qed.

End Timestamp.

(** C4 as stated fails: this candidate is stamped exactly 60 seconds after
    the previous block and exactly 60 seconds before the clock, and the
    check accepts it. *)
Lemma is_valid_timestamp_accepts_sixty_seconds_later :
  let previous_block : Ledger.block := Block.mk 0 None 1528359030000000 [] 0 0 [] in
  let new_block : Ledger.block := Block.mk 1 None 1528359090000000 [] 0 0 [] in
  let now := 1528359150000000 in
  Block.timestamp new_block = Block.timestamp previous_block + seconds 60
  ∧ Block.timestamp new_block = now - seconds 60
  ∧ Block.is_valid_timestamp now new_block previous_block = true.
Proof. vm_compute. auto. Qed.

(** ** Serialization *)

Section Serialization.
Context `{Collaborators Transaction UnspentTxOut TransactionPool Wallet Decimal}.

Lemma timestamp_int_fromtimestamp (s : Z) : timestamp_int (fromtimestamp s) = s.
Proof. unfold timestamp_int, fromtimestamp. apply Z.quot_mul. lia. Qed.

Lemma getitem_to_raw (b : Block.t Transaction) :
  getitem (Block.to_raw b) "index" = Ok (JInt (Block.index b))
  ∧ getitem (Block.to_raw b) "previousHash"
    = Ok (match Block.previous_hash b with
          | Some ph => JStr (bytes_hex ph)
          | None => JNone
          end)
  ∧ getitem (Block.to_raw b) "timestamp"
    = Ok (JInt (timestamp_int (Block.timestamp b)))
  ∧ getitem (Block.to_raw b) "data" = Ok (to_raw_list (Block.data b))
  ∧ getitem (Block.to_raw b) "difficulty" = Ok (JInt (Block.difficulty b))
  ∧ getitem (Block.to_raw b) "nonce" = Ok (JInt (Block.nonce b))
  ∧ getitem (Block.to_raw b) "hash" = Ok (JStr (bytes_hex (Block.hash b))).
Proof. repeat split. Qed.

(** The block that [from_raw] reads back from [to_raw b]: [b] with its
    timestamp cut to whole seconds. *)
Lemma from_raw_to_raw (b : Block.t Transaction) :
  Block.calculate_hash_for_block b = Ok (Block.hash b) →
  from_raw_list (to_raw_list (Block.data b)) = Ok (Block.data b) →
  (∀ ph, Block.previous_hash b = Some ph →
         hex_to_bytes (JStr (bytes_hex ph)) = Ok ph) →
  Block.from_raw (Block.to_raw b)
  = Ok (Block.mk (Block.index b) (Block.previous_hash b)
          (fromtimestamp (timestamp_int (Block.timestamp b)))
          (Block.data b) (Block.difficulty b) (Block.nonce b) (Block.hash b)).
Proof.
  intros Hh Hdata Hhex.
  destruct (getitem_to_raw b) as (Hi & Hp & Ht & Hd & Hdf & Hn & _).
  unfold Block.from_raw. rewrite Hi, Hp, Ht, Hd, Hdf, Hn. cbn [mbind Result_bind].
  assert (Hph :
    match
      match Block.previous_hash b with
      | Some ph => JStr (bytes_hex ph)
      | None => JNone
      end
    with
    | JNone => Ok None
    | v => hex_to_bytes v ≫= λ x, Ok (Some x)
    end = Ok (Block.previous_hash b)).
  { destruct (Block.previous_hash b) as [ph|] eqn:Hph; [|done].
    rewrite (Hhex ph eq_refl). done. }
  etransitivity.
  { instantiate (1 :=
      Block.construct (JInt (Block.index b)) (Block.previous_hash b)
        (fromtimestamp (timestamp_int (Block.timestamp b))) (Block.data b)
        (JInt (Block.difficulty b)) (JInt (Block.nonce b))).
    destruct (Block.previous_hash b) as [ph|] eqn:Hp'.
    - rewrite (Hhex ph eq_refl). cbn [mbind Result_bind]. rewrite Hdata. done.
    - cbn [mbind Result_bind]. rewrite Hdata. done. }
  unfold Block.calculate_hash_for_block in Hh.
  pose proof (calculate_hash_Ok _ _ _ _ _ _ _ Hh) as (Fi & Ft & Fd & Fn).
  unfold Block.construct.
  rewrite timestamp_int_fromtimestamp, !to_bytes_fits by assumption.
  cbn [mbind Result_bind]. apply init_Ok. eexists. split; [|reflexivity].
  rewrite calculate_hash_fits in Hh by assumption.
  rewrite calculate_hash_fits
    by (rewrite ?timestamp_int_fromtimestamp; assumption).
  unfold Block.canonical_bytes in *. rewrite timestamp_int_fromtimestamp.
  exact Hh.
Qed.

(** C8, amended: reading back the raw form of a block whose timestamp is a
    whole number of seconds gives the block itself, provided the block
    stores the hash of its fields (as the constructor makes it) and its
    transactions and previous hash survive the raw forms of the
    collaborators; with a fraction of a second in the timestamp the result
    is another block, which [==] tells from the first. *)
Theorem from_raw_to_raw_whole_seconds (b : Block.t Transaction) :
  Block.calculate_hash_for_block b = Ok (Block.hash b) →
  from_raw_list (to_raw_list (Block.data b)) = Ok (Block.data b) →
  (∀ ph, Block.previous_hash b = Some ph →
         hex_to_bytes (JStr (bytes_hex ph)) = Ok ph) →
  (Block.timestamp b mod 1000000 = 0 →
   ∃ b', Block.from_raw (Block.to_raw b) = Ok b' ∧ Block.eqb b' b = true)
  ∧ (Block.timestamp b mod 1000000 ≠ 0 →
     ∃ b', Block.from_raw (Block.to_raw b) = Ok b' ∧ Block.eqb b' b = false).
Proof.
  intros Hh Hdata Hhex.
  pose proof (from_raw_to_raw b Hh Hdata Hhex) as Hb.
  split; intros Hts; eexists; (split; [exact Hb|]); unfold Block.eqb; cbn.
  - rewrite !bool_decide_eq_true_2; [done..| |done|done].
    unfold fromtimestamp, timestamp_int.
    pose proof (Z.quot_rem' (Block.timestamp b) 1000000) as Hq.
    assert (Hr : Z.rem (Block.timestamp b) 1000000 = 0).
    { apply Z.rem_divide; [lia|]. apply Z.mod_divide; [lia|done]. }
    lia.
  - assert (Hne : fromtimestamp (timestamp_int (Block.timestamp b)) ≠ Block.timestamp b).
    { unfold fromtimestamp. intros Heq. apply Hts. rewrite <- Heq.
      apply Z.mod_mul. lia. }
    rewrite (bool_decide_eq_false_2 _ Hne).
    by rewrite !andb_false_r, ?andb_false_l.
Qed.

End Serialization.

(** C8 as stated fails: the constructor accepts this block, stamped half a
    second after a whole second, and the block read back from its raw form
    is not equal to it. *)
Lemma from_raw_to_raw_drops_fraction :
  Block.init 1 None 1528359031500000 [7] 0 0
  = Ok Ledger.fractional_block
  ∧ Block.from_raw (Block.to_raw Ledger.fractional_block) = Ok Ledger.read_back
  ∧ Block.timestamp Ledger.fractional_block = 1528359031500000
  ∧ Block.timestamp Ledger.read_back = 1528359031000000
  ∧ Block.eqb Ledger.read_back Ledger.fractional_block = false.
Proof. repeat apply conj; vm_compute; reflexivity. Qed.

Lemma from_raw_to_raw_whole_seconds_witness :
  Block.calculate_hash_for_block Ledger.whole_block
  = Ok (Block.hash Ledger.whole_block)
  ∧ from_raw_list (to_raw_list (Block.data Ledger.whole_block))
    = Ok (Block.data Ledger.whole_block)
  ∧ (∀ ph, Block.previous_hash Ledger.whole_block = Some ph →
           hex_to_bytes (JStr (bytes_hex ph)) = Ok ph)
  ∧ (Block.timestamp Ledger.whole_block mod 1000000 = 0 →
     ∃ b', Block.from_raw (Block.to_raw Ledger.whole_block) = Ok b'
           ∧ Block.eqb b' Ledger.whole_block = true)
  ∧ (Block.timestamp Ledger.whole_block mod 1000000 ≠ 0 →
     ∃ b', Block.from_raw (Block.to_raw Ledger.whole_block) = Ok b'
           ∧ Block.eqb b' Ledger.whole_block = false).
Proof.
  assert (H1 : Block.calculate_hash_for_block Ledger.whole_block
               = Ok (Block.hash Ledger.whole_block))
    by (vm_compute; reflexivity).
  assert (H2 : from_raw_list (to_raw_list (Block.data Ledger.whole_block))
               = Ok (Block.data Ledger.whole_block))
    by (vm_compute; reflexivity).
  assert (H3 : ∀ ph, Block.previous_hash Ledger.whole_block = Some ph →
                     hex_to_bytes (JStr (bytes_hex ph)) = Ok ph).
  { intros ph Hph. injection Hph as <-. vm_compute. reflexivity. }
  split; [exact H1|]. split; [exact H2|]. split; [exact H3|].
  exact (from_raw_to_raw_whole_seconds Ledger.whole_block H1 H2 H3).
Defined.

(** ** The chain *)

Section ChainFacts.
Context `{Collaborators Transaction UnspentTxOut TransactionPool Wallet Decimal}.

Ltac run :=
  unfold mbind, Blockchain.M_bind, Blockchain.bind, Blockchain.get,
    Blockchain.put, Blockchain.lift, Blockchain.ret, Blockchain.raise in *.

Lemma has_valid_hash_Raise b e :
  Block.has_valid_hash b = Raise e → e = OverflowError.
Proof.
  unfold Block.has_valid_hash. intros [Hh | (h & _ & Hh)]%bind_Raise.
  - by eapply calculate_hash_Raise.
  - repeat destruct (negb _); discriminate.
Qed.

Lemma is_valid_next_true now self next_block :
  Block.is_valid_next now self next_block = Ok true
  ↔ Blockchain.follows self next_block
    ∧ Block.timestamp next_block - now < seconds 60.
Proof.
  unfold Block.is_valid_next, Blockchain.follows, Block.has_valid_structure.
  cbn [negb]. split.
  - intros Hv.
    destruct (bool_decide (Block.index self + 1 = Block.index next_block)) eqn:Hi;
      cbn [negb] in Hv; [|discriminate].
    destruct (bool_decide (Some (Block.hash self) = Block.previous_hash next_block))
      eqn:Hp; cbn [negb] in Hv; [|discriminate].
    destruct (Block.is_valid_timestamp now next_block self) eqn:Ht;
      cbn [negb] in Hv; [|discriminate].
    apply bind_Ok in Hv as (v & Hvh & Hv). destruct v; [|discriminate].
    apply bool_decide_eq_true in Hi, Hp.
    apply is_valid_timestamp_iff in Ht as [? ?].
    repeat split; auto; lia.
  - intros [(Hi & Hp & Ht & Hh) Hn].
    rewrite bool_decide_eq_true_2 by lia. cbn [negb].
    rewrite bool_decide_eq_true_2 by done. cbn [negb].
    replace (Block.is_valid_timestamp now next_block self) with true
      by (symmetry; apply is_valid_timestamp_iff; done).
    cbn [negb]. rewrite Hh. done.
Qed.

Lemma is_valid_next_Raise now self next_block e :
  Block.is_valid_next now self next_block = Raise e → e = OverflowError.
Proof.
  unfold Block.is_valid_next.
  repeat (destruct (negb _); [discriminate|]).
  intros [Hh | (v & _ & Hh)]%bind_Raise.
  - by eapply has_valid_hash_Raise.
  - destruct (negb v); discriminate.
Qed.

(** The genesis block can be built, whatever the collaborators. *)
Lemma genesis_block_Ok :
  Block.genesis_block
  = Ok (Block.mk 0 None (fromtimestamp 1528359030) [] 0 0
          (SHA256.digest
             (Block.canonical_bytes 0 None (fromtimestamp 1528359030) [] 0 0))).
Proof.
  unfold Block.genesis_block. apply init_Ok. eexists. split; [|reflexivity].
  apply calculate_hash_fits; unfold Block.fits; vm_compute; split; congruence.
Qed.

Lemma fold_transactions_cons b bs u :
  Blockchain.fold_transactions (b :: bs) u
  = process_transactions (Block.data b) u (Block.index b)
      ≫= Blockchain.fold_transactions bs.
Proof.
  unfold Blockchain.fold_transactions. cbn [fold_left mbind option_bind].
  destruct (process_transactions _ _ _) as [u'|]; [done|].
  cbn. induction bs as [|b' bs IH]; [done|]. exact IH.
Qed.

Lemma fold_transactions_snoc bs b u u' :
  Blockchain.fold_transactions bs u = Some u' →
  Blockchain.fold_transactions (bs ++ [b]) u
  = process_transactions (Block.data b) u' (Block.index b).
Proof.
  unfold Blockchain.fold_transactions. rewrite fold_left_app. intros ->. done.
Qed.

Lemma chained_snoc prev rest tip b :
  Blockchain.chained prev rest →
  last (prev :: rest) = Some tip →
  Blockchain.follows tip b →
  Blockchain.chained prev (rest ++ [b]).
Proof.
  revert prev. induction rest as [|c rest IH]; intros prev Hc Htip Hb.
  - injection Htip as ->. simpl. auto.
  - destruct Hc as [Hpc Hc]. split; [done|]. by apply IH.
Qed.

(** What the loop of [validate_blocks] has checked when it returns a set of
    unspent outputs. *)
Lemma validate_from_Some l : ∀ now i prev u r,
  Blockchain.validate_from now i prev l u = Ok (Some r) →
  ∃ bs, l = map PyBlock bs
        ∧ Blockchain.as_blocks l = Ok bs
        ∧ Blockchain.fold_transactions bs u = Some r
        ∧ match prev, bs with
          | Some p, _ => Blockchain.chained p bs
          | None, b :: rest => Blockchain.chained b rest
          | None, [] => True
          end.
Proof.
  induction l as [|o l IH]; intros now i prev u r Hv.
  - injection Hv as <-. exists []. repeat split; try done. by destruct prev.
  - destruct o as [b|raw]; [|discriminate]. cbn [Blockchain.validate_from] in Hv.
    apply bind_Ok in Hv as (valid & Hvalid & Hv).
    destruct valid; [|discriminate]. cbn [negb] in Hv.
    destruct (process_transactions _ _ _) as [u'|] eqn:Hp; [|discriminate].
    apply IH in Hv as (bs & -> & Has & Hfold & Hch).
    exists (b :: bs). split; [done|]. split.
    { cbn [Blockchain.as_blocks map]. cbn [map] in Has. rewrite Has. done. }
    split.
    { rewrite fold_transactions_cons, Hp. exact Hfold. }
    destruct prev as [p|].
    + apply is_valid_next_true in Hvalid as [Hf _]. split; done.
    + exact Hch.
Qed.

Lemma validate_blocks_Some now new_blocks u :
  Blockchain.validate_blocks now new_blocks = Ok (Some u) →
  ∃ g rest,
    Block.genesis_block = Ok g
    ∧ new_blocks = PyList (map PyBlock (g :: rest))
    ∧ Blockchain.as_blocks (map PyBlock (g :: rest)) = Ok (g :: rest)
    ∧ Blockchain.chained g rest
    ∧ Blockchain.fold_transactions (g :: rest) [] = Some u.
Proof.
  destruct new_blocks as [l|]; [|discriminate].
  unfold Blockchain.validate_blocks. destruct l as [|first l]; [discriminate|].
  intros (isg & Hg & Hv)%bind_Ok. destruct isg; [|discriminate]. cbn [negb] in Hv.
  apply validate_from_Some in Hv as (bs & Hl & Has & Hfold & Hch).
  destruct bs as [|b rest]; [discriminate|]. injection Hl as -> ->.
  unfold Blockchain.is_genesis, Block.is_genesis in Hg.
  apply bind_Ok in Hg as (g & Hgen & Hg). injection Hg as Hg.
  assert (b = g) as ->.
  { destruct b, g. unfold Block.eqb in Hg. cbn in Hg.
    repeat (apply andb_true_iff in Hg as [Hg ?]).
    repeat match goal with
           | H : bool_decide _ = true |- _ => apply bool_decide_eq_true in H
           end.
    congruence. }
  exists g, rest. rewrite <- Has. done.
Qed.

(** [add_block] on a block, step by step. *)
Lemma add_block_run now b self :
  Blockchain.add_block now (PyBlock b) self
  = match Blockchain.get_latest self with
    | Raise e => (Raise e, self)
    | Ok latest =>
        match Block.is_valid_next now latest b with
        | Raise e => (Raise e, self)
        | Ok false => (Ok false, self)
        | Ok true =>
            match process_transactions (Block.data b)
                    (Blockchain.unspent_tx_outs self) (Block.index b) with
            | None => (Ok false, self)
            | Some u =>
                (Ok true,
                 Blockchain.mk (Blockchain.blocks self ++ [b])
                   (Blockchain.p2p_application self)
                   (pool_update u (Blockchain.tx_pool self)) u)
            end
        end
    end.
Proof.
  unfold Blockchain.add_block. run.
  destruct (Blockchain.get_latest self) as [latest|e]; [|done].
  destruct (Block.is_valid_next now latest b) as [[|]|e]; [|done..].
  cbn [negb]. by destruct (process_transactions _ _ _).
Qed.

(** [replace], step by step. *)
Lemma replace_run now new_blocks self :
  Blockchain.replace now new_blocks self
  = match Blockchain.validate_blocks now new_blocks with
    | Raise e => (Raise e, self)
    | Ok None => (Ok false, self)
    | Ok (Some u) =>
        match new_blocks with
        | PyNotList => (Ok false, self)
        | PyList l =>
            match Blockchain.as_blocks l with
            | Raise e => (Raise e, self)
            | Ok new =>
                if Blockchain.get_accumulated_difficulty (Blockchain.blocks self)
                   <? Blockchain.get_accumulated_difficulty new
                then
                  let self' :=
                    Blockchain.mk new (Blockchain.p2p_application self)
                      (pool_update u (Blockchain.tx_pool self)) u in
                  match Blockchain.p2p_application self with
                  | None => (Raise AttributeError, self')
                  | Some calls =>
                      (Ok true,
                       Blockchain.mk new
                         (Some (calls ++ [Blockchain.BroadcastLatest new]))
                         (pool_update u (Blockchain.tx_pool self)) u)
                  end
                else (Ok false, self)
            end
        end
    end.
Proof.
  unfold Blockchain.replace, Blockchain.broadcast_latest. run.
  destruct (Blockchain.validate_blocks now new_blocks) as [[u|]|e];
    [|by destruct new_blocks|done].
  destruct new_blocks as [l|]; [|done].
  destruct (Blockchain.as_blocks l) as [new|e]; [|done].
  destruct (_ <? _); [|done]. cbn.
  by destruct (Blockchain.p2p_application self).
Qed.

(** C2: [replace] changes the state only for a candidate that validates
    and whose accumulated difficulty, the sum of the powers [2 ^ difficulty]
    of its blocks, is strictly greater than that of the chain; when it
    returns true the accumulated difficulty of the chain has strictly
    increased; for a candidate that validates and is not strictly heavier
    it returns false and leaves the state as it was. *)
Theorem replace_only_strictly_heavier now new_blocks self r self' :
  Blockchain.replace now new_blocks self = (r, self') →
  (self' ≠ self →
   ∃ l new u,
     new_blocks = PyList l
     ∧ Blockchain.validate_blocks now new_blocks = Ok (Some u)
     ∧ Blockchain.as_blocks l = Ok new
     ∧ Blockchain.get_accumulated_difficulty (Blockchain.blocks self)
       < Blockchain.get_accumulated_difficulty new
     ∧ Blockchain.blocks self' = new
     ∧ Blockchain.unspent_tx_outs self' = u)
  ∧ (r = Ok true →
     self' ≠ self
     ∧ Blockchain.get_accumulated_difficulty (Blockchain.blocks self)
       < Blockchain.get_accumulated_difficulty (Blockchain.blocks self'))
  ∧ (∀ l new u,
       new_blocks = PyList l →
       Blockchain.validate_blocks now new_blocks = Ok (Some u) →
       Blockchain.as_blocks l = Ok new →
       Blockchain.get_accumulated_difficulty new
       ≤ Blockchain.get_accumulated_difficulty (Blockchain.blocks self) →
       r = Ok false
       ∧ Blockchain.blocks self' = Blockchain.blocks self
       ∧ Blockchain.unspent_tx_outs self' = Blockchain.unspent_tx_outs self
       ∧ self' = self).
Proof.
  rewrite replace_run. intros Hrun.
  destruct (Blockchain.validate_blocks now new_blocks) as [[u|]|e] eqn:Hv.
  2,3: injection Hrun as <- <-; repeat split; try done; try discriminate.
  destruct new_blocks as [l|]; [|discriminate].
  destruct (Blockchain.as_blocks l) as [new|e] eqn:Has.
  2: { apply validate_blocks_Some in Hv as (g & rest & _ & Hl & Has' & _).
       injection Hl as ->. cbn [map] in Has'. rewrite Has' in Has. discriminate. }
  destruct (_ <? _) eqn:Hlt.
  - apply Z.ltb_lt in Hlt.
    assert (Hheavier : ∃ l0 new0 u0,
      PyList l = PyList l0 ∧ Ok (Some u) = Ok (Some u0)
      ∧ Blockchain.as_blocks l0 = Ok new0
      ∧ Blockchain.get_accumulated_difficulty (Blockchain.blocks self)
        < Blockchain.get_accumulated_difficulty new0
      ∧ new = new0 ∧ u = u0) by (exists l, new, u; done).
    assert (Hne : ∀ p pool,
      Blockchain.mk new p pool u ≠ self).
    { intros p pool <-. cbn [Blockchain.blocks] in Hlt. lia. }
    cbv zeta in Hrun.
    destruct (Blockchain.p2p_application self) as [calls|];
      injection Hrun as <- <-; cbn [Blockchain.blocks Blockchain.unspent_tx_outs].
    + split; [intros _; exact Hheavier|]. split; [intros _; split; [apply Hne | done]|].
      intros l0 new0 u0 [= <-] [= <-] Has0 Hle.
      rewrite Has in Has0. injection Has0 as <-. lia.
    + split; [intros _; exact Hheavier|]. split; [discriminate|].
      intros l0 new0 u0 [= <-] [= <-] Has0 Hle.
      rewrite Has in Has0. injection Has0 as <-. lia.
  - injection Hrun as <- <-. repeat split; try done; discriminate.
Qed.

End ChainFacts.

(** ** Rejections that raise *)

Section Raising.
Context `{Collaborators Transaction UnspentTxOut TransactionPool Wallet Decimal}.

(** C5, on the code: for the empty list [validate_blocks] raises
    [IndexError], and so does [replace], which leaves the state as it was. *)
Theorem replace_empty_list_raises now self :
  Blockchain.validate_blocks now (PyList []) = Raise IndexError
  ∧ Blockchain.replace now (PyList []) self = (Raise IndexError, self).
Proof. split; [done|]. by rewrite replace_run. Qed.

(** C6, on the code: for an object that is not a block and has no method
    [to_raw], such as [None], [add_block] raises [AttributeError] and no
    bad-request error; the state is as it was. *)
Theorem add_block_without_to_raw_raises now self :
  Blockchain.add_block now (PyOther None) self = (Raise AttributeError, self).
Proof. reflexivity. Qed.

End Raising.
Lemma replace_only_strictly_heavier_witness :
  Blockchain.replace (λ _, 1528359050000000)
    (PyList [PyBlock Ledger.genesis; PyBlock Ledger.heavy_block]) Ledger.started
  = (Ok true,
     Blockchain.mk [Ledger.genesis; Ledger.heavy_block]
       (Some [Blockchain.BroadcastLatest [Ledger.genesis; Ledger.heavy_block]])
       [] [])
  ∧ Blockchain.get_accumulated_difficulty (Blockchain.blocks Ledger.started)
    < Blockchain.get_accumulated_difficulty [Ledger.genesis; Ledger.heavy_block].
Proof.
  assert (Hrun :
    Blockchain.replace (λ _, 1528359050000000)
      (PyList [PyBlock Ledger.genesis; PyBlock Ledger.heavy_block]) Ledger.started
    = (Ok true,
       Blockchain.mk [Ledger.genesis; Ledger.heavy_block]
         (Some [Blockchain.BroadcastLatest [Ledger.genesis; Ledger.heavy_block]])
         [] [])) by (vm_compute; reflexivity).
  split; [exact Hrun|].
  exact (proj2 (proj1 (proj2 (replace_only_strictly_heavier _ _ _ _ _ Hrun)) eq_refl)).
Defined.


(** ** What the operations do to the chain *)

Section Reachable.
Context `{Collaborators Transaction UnspentTxOut TransactionPool Wallet Decimal}.
Implicit Types self : Blockchain.t (Transaction := Transaction)
  (UnspentTxOut := UnspentTxOut) (TransactionPool := TransactionPool).

Ltac run :=
  unfold mbind, Blockchain.M_bind, Blockchain.bind, Blockchain.get,
    Blockchain.put, Blockchain.lift, Blockchain.ret, Blockchain.raise in *.

Lemma add_block_effect now o self r self' :
  Blockchain.add_block now o self = (r, self') →
  (r = Ok true ∧ Blockchain.appended self self') ∨ (r ≠ Ok true ∧ self' = self).
Proof.
  destruct o as [b|[raw|]].
  2,3: intros [= <- <-]; right; done.
  rewrite add_block_run.
  destruct (Blockchain.get_latest self) as [latest|e] eqn:Hl;
    [|intros [= <- <-]; right; done].
  destruct (Block.is_valid_next now latest b) as [[|]|e] eqn:Hv;
    [|intros [= <- <-]; right; done..].
  destruct (process_transactions _ _ _) as [u|] eqn:Hp;
    [|intros [= <- <-]; right; done].
  intros [= <- <-]. left. split; [done|]. exists now, latest, b, u. done.
Qed.

Lemma replace_effect now new_blocks self r self' :
  Blockchain.replace now new_blocks self = (r, self') →
  Blockchain.swapped self self' ∨ (r ≠ Ok true ∧ self' = self).
Proof.
  rewrite replace_run.
  destruct (Blockchain.validate_blocks now new_blocks) as [[u|]|e] eqn:Hv;
    [|intros [= <- <-]; right; done..].
  pose proof (validate_blocks_Some _ _ _ Hv) as (g & rest & _ & -> & Has & _).
  rewrite Has. destruct (_ <? _) eqn:Hlt; [|intros [= <- <-]; right; done].
  apply Z.ltb_lt in Hlt. cbv zeta.
  destruct (Blockchain.p2p_application self); intros [= <- <-]; left;
    exists now, u; done.
Qed.

Lemma broadcast_latest_effect self r self' :
  Blockchain.broadcast_latest self = (r, self') → Blockchain.same_chain self self'.
Proof.
  unfold Blockchain.broadcast_latest. run.
  destruct (Blockchain.p2p_application self); intros [= <- <-]; done.
Qed.

Lemma generate_raw_next_block_effect fuel now now' data self r self' :
  Blockchain.generate_raw_next_block fuel now now' data self = Some (r, self') →
  Blockchain.appended self self' ∨ Blockchain.same_chain self self'.
Proof.
  unfold Blockchain.generate_raw_next_block.
  destruct (Blockchain.get_latest self) as [latest|e];
    [|intros [= <- <-]; right; done].
  destruct (Blockchain.get_difficulty self) as [d|e];
    [|intros [= <- <-]; right; done].
  destruct (Block.find _ _ _ _ _ _) as [[b|e]|]; [|intros [= <- <-]; right; done|done].
  run. destruct (Blockchain.add_block now' (PyBlock b) self) as [[added|e] s1] eqn:Ha.
  - apply add_block_effect in Ha as [[[= ->] Happ] | [Hne ->]].
    + destruct (Blockchain.broadcast_latest s1) as [[[]|e] s2] eqn:Hb;
        intros [= <- <-]; apply broadcast_latest_effect in Hb as [Hb1 Hb2];
        left; destruct Happ as (n & l & b' & u & ? & ? & ? & ? & ?);
        exists n, l, b', u; repeat split; congruence.
    + destruct added; [done|]. intros [= <- <-]. right. done.
  - apply add_block_effect in Ha as [[? _] | [_ ->]]; [done|].
    intros [= <- <-]. right. done.
Qed.

Lemma handle_received_transaction_effect tx self r self' :
  Blockchain.handle_received_transaction tx self = (r, self') →
  Blockchain.same_chain self self'.
Proof.
  unfold Blockchain.handle_received_transaction. run.
  destruct (pool_add_transaction _ _ _). intros [= <- <-]. done.
Qed.

Lemma send_transaction_effect wallet receiver a self r self' :
  Blockchain.send_transaction wallet receiver a self = (r, self') →
  Blockchain.same_chain self self'.
Proof.
  unfold Blockchain.send_transaction, Blockchain.broadcast_transaction_pool. run.
  destruct (wallet_create_transaction _ _ _ _ _) as [tx|e];
    [|intros [= <- <-]; done].
  destruct (pool_add_transaction _ _ _) as [[|] pool]; cbn.
  - destruct (Blockchain.p2p_application self); intros [= <- <-]; done.
  - intros [= <- <-]. done.
Qed.

(** Only an accepted block and a validated heavier chain change the blocks
    and the unspent outputs. *)
Lemma step_effect self self' :
  Blockchain.step self self' →
  Blockchain.same_chain self self' ∨ Blockchain.appended self self' ∨ Blockchain.swapped self self'.
Proof.
  intros Hstep. destruct Hstep as
    [ self | self pool | now o self r self' Hr | now nb self r self' Hr
    | fuel now now' data self r self' Hr | fuel now now' w self r self' Hr
    | fuel now now' w rcv a self r self' Hr | w rcv a self r self' Hr
    | tx self r self' Hr ].
  - left. done.
  - left. done.
  - apply add_block_effect in Hr as [[_ ?] | [_ ->]]; [auto | left; done].
  - apply replace_effect in Hr as [? | [_ ->]]; [auto | left; done].
  - apply generate_raw_next_block_effect in Hr as [?|?]; auto.
  - unfold Blockchain.generate_next_block in Hr.
    destruct (Blockchain.get_latest self); [|injection Hr as <- <-; left; done].
    apply generate_raw_next_block_effect in Hr as [?|?]; auto.
  - unfold Blockchain.generate_next_with_transaction in Hr.
    destruct (negb _); [injection Hr as <- <-; left; done|].
    destruct a as [d|v]; [|injection Hr as <- <-; left; done].
    destruct (Blockchain.get_latest self); [|injection Hr as <- <-; left; done].
    destruct (wallet_create_transaction _ _ _ _ _);
      [|injection Hr as <- <-; left; done].
    apply generate_raw_next_block_effect in Hr as [?|?]; auto.
  - left. by eapply send_transaction_effect.
  - left. by eapply handle_received_transaction_effect.
Qed.

Lemma init_Ok_chain (tx_pool : TransactionPool) self :
  Blockchain.init tx_pool = Ok self →
  ∃ g, Block.genesis_block = Ok g ∧ self = Blockchain.mk [g] None tx_pool [].
Proof.
  unfold Blockchain.init. intros (g & Hg & [= <-])%bind_Ok. eauto.
Qed.

Lemma map_PyBlock_inj (l l' : list (Block.t Transaction)) :
  map PyBlock l = map PyBlock l' → l = l'.
Proof.
  revert l'. induction l as [|b l IH]; intros [|b' l'] Hl; try discriminate.
  - done.
  - injection Hl as -> Hl. f_equal. by apply IH.
Qed.

Lemma step_well_formed self self' :
  Blockchain.step self self' →
  Blockchain.well_formed self → Blockchain.well_formed self'.
Proof.
  intros Hstep (g & rest & Hg & Hb & Hch).
  apply step_effect in Hstep as [[Hsame _] | [Happ | Hsw]].
  - exists g, rest. rewrite Hsame. done.
  - destruct Happ as (now & latest & b & u & Hl & Hv & _ & Hb' & _).
    exists g, (rest ++ [b]). split; [done|]. split; [rewrite Hb', Hb; done|].
    apply is_valid_next_true in Hv as [Hf _].
    apply (chained_snoc g rest latest b Hch); [|done].
    unfold Blockchain.get_latest in Hl. rewrite Hb in Hl.
    destruct (last (g :: rest)); [|discriminate]. by injection Hl as ->.
  - destruct Hsw as (now & u & Hv & _).
    apply validate_blocks_Some in Hv as (g' & rest' & Hg' & Hl & _ & Hch' & _).
    injection Hl as Hl. apply (map_PyBlock_inj _ (g' :: rest')) in Hl.
    exists g', rest'. done.
Qed.

Lemma step_ledger_consistent self self' :
  Blockchain.step self self' →
  Blockchain.ledger_consistent self → Blockchain.ledger_consistent self'.
Proof.
  unfold Blockchain.ledger_consistent. intros Hstep Hfold.
  apply step_effect in Hstep as [[Hb Hu] | [Happ | Hsw]].
  - rewrite Hb, Hu. done.
  - destruct Happ as (now & latest & b & u & _ & _ & Hp & Hb' & Hu).
    rewrite Hb', Hu. rewrite (fold_transactions_snoc _ _ _ _ Hfold). done.
  - destruct Hsw as (now & u & Hv & _ & Hu).
    apply validate_blocks_Some in Hv as (g' & rest' & _ & Hl & _ & _ & Hf).
    injection Hl as Hl. apply (map_PyBlock_inj _ (g' :: rest')) in Hl.
    rewrite Hl, Hu. done.
Qed.

Lemma reachable_well_formed self :
  Blockchain.reachable self → Blockchain.well_formed self.
Proof.
  intros (tx_pool & self0 & Hinit & Hsteps).
  revert self Hsteps. apply rtc_ind_r.
  - apply init_Ok_chain in Hinit as (g & Hg & ->). exists g, []. done.
  - intros self1 self2 _ Hstep IH. by eapply step_well_formed.
Qed.

Lemma reachable_ledger_consistent self :
  process_transactions [] [] 0 = Some [] →
  Blockchain.reachable self → Blockchain.ledger_consistent self.
Proof.
  intros Hempty (tx_pool & self0 & Hinit & Hsteps).
  revert self Hsteps. apply rtc_ind_r.
  - apply init_Ok_chain in Hinit as (g & Hg & ->).
    rewrite genesis_block_Ok in Hg. injection Hg as <-.
    unfold Blockchain.ledger_consistent. cbn. exact Hempty.
  - intros self1 self2 _ Hstep IH. by eapply step_ledger_consistent.
Qed.

Lemma reachable_step self self' :
  Blockchain.reachable self → Blockchain.step self self' →
  Blockchain.reachable self'.
Proof.
  intros (tx_pool & self0 & Hinit & Hsteps) Hstep.
  exists tx_pool, self0. split; [done|]. by eapply rtc_r.
Qed.

(** C7: on a chain created by the constructor and used through its
    operations, the unspent outputs stored after [add_block] or [replace]
    returns true are the left fold of [process_transactions] over the data
    and the indexes of the blocks of the chain, from the empty set,
    provided the ledger maps the empty data of the genesis block and the
    empty set to the empty set. *)
Theorem unspent_tx_outs_is_fold self now now' block new_blocks self' :
  process_transactions [] [] 0 = Some [] →
  Blockchain.reachable self →
  Blockchain.add_block now block self = (Ok true, self')
  ∨ Blockchain.replace now' new_blocks self = (Ok true, self') →
  Blockchain.fold_transactions (Blockchain.blocks self') []
  = Some (Blockchain.unspent_tx_outs self').
Proof.
  intros Hempty Hreach Hcall.
  apply (reachable_ledger_consistent self' Hempty).
  apply (reachable_step self self' Hreach).
  destruct Hcall as [Hadd | Hrep].
  - by eapply Blockchain.step_add_block.
  - by eapply Blockchain.step_replace.
Qed.

End Reachable.

Lemma started_reachable : Blockchain.reachable Ledger.started.
Proof.
  exists [], Ledger.unattached. split.
  - vm_compute. reflexivity.
  - apply rtc_once. apply (Blockchain.step_attach Ledger.unattached).
Qed.

Lemma unspent_tx_outs_is_fold_witness :
  process_transactions (Transaction := Z) (UnspentTxOut := Z) [] [] 0 = Some []
  ∧ Blockchain.reachable Ledger.started
  ∧ Blockchain.add_block 1528359050000000 (PyBlock Ledger.light_block) Ledger.started
    = (Ok true,
       Blockchain.mk [Ledger.genesis; Ledger.light_block] (Some []) [] [11])
  ∧ Blockchain.fold_transactions [Ledger.genesis; Ledger.light_block] []
    = Some [11].
Proof.
  assert (H0 : process_transactions (Transaction := Z) (UnspentTxOut := Z) [] [] 0
               = Some []) by reflexivity.
  assert (H1 :
    Blockchain.add_block 1528359050000000 (PyBlock Ledger.light_block) Ledger.started
    = (Ok true,
       Blockchain.mk [Ledger.genesis; Ledger.light_block] (Some []) [] [11]))
    by (vm_compute; reflexivity).
  split; [exact H0|]. split; [exact started_reachable|]. split; [exact H1|].
  exact (unspent_tx_outs_is_fold Ledger.started 1528359050000000 (λ _, 0)
           (PyBlock Ledger.light_block) PyNotList _ H0 started_reachable
           (or_introl H1)).
Defined.

(** ** The difficulty of the next block *)

(** C1, on the code: after ten blocks mined one second apart, the first one
    a thousand seconds after the genesis block, the tip has height 10 and
    the next difficulty is computed from the block of height 1, nine
    seconds before the tip: it is 1.  The specification takes the block of
    height 0, more than 200 seconds before the tip, and gives 0. *)
Theorem get_difficulty_takes_the_block_nine_back :
  Ledger.mine 10 1528360030000000 Ledger.started = Some Ledger.ten_blocks
  ∧ map Block.index (Blockchain.blocks Ledger.ten_blocks)
    = [0; 1; 2; 3; 4; 5; 6; 7; 8; 9; 10]
  ∧ map Block.timestamp (Blockchain.blocks Ledger.ten_blocks)
    = map (λ s, 1528359030000000 + seconds s)
        [0; 1000; 1001; 1002; 1003; 1004; 1005; 1006; 1007; 1008; 1009]
  ∧ Blockchain.get_difficulty Ledger.ten_blocks = Ok 1
  ∧ Blockchain.specified_difficulty Ledger.ten_blocks = Ok 0.
Proof. repeat apply conj; vm_compute; reflexivity. Qed.

(** ** Leading zero bits *)

Lemma bits_value_bounds (bits : list bool) :
  0 ≤ bits_value bits < 2 ^ Z.of_nat (length bits).
Proof.
  induction bits as [|b rest IH]; [simpl; lia|].
  cbn [bits_value length]. rewrite Nat2Z.inj_succ, Z.pow_succ_r by lia.
  destruct b; simpl Z.b2z; lia.
Qed.



Lemma length_byte_bits (b : byte) : length (byte_bits b) = 8%nat.
Proof. reflexivity. Qed.

Lemma length_bits_of (bs : bytes) : length (bits_of bs) = (8 * length bs)%nat.
Proof.
  induction bs as [|b bs IH]; [done|].
  unfold bits_of in *. cbn [map concat]. rewrite length_app, IH, length_byte_bits.
  simpl. lia.
Qed.



Lemma startswith_zeros (bits : list bool) : ∀ k : nat,
  startswith bits (repeat false k) = true
  ↔ (k ≤ length bits)%nat
    ∧ bits_value bits < 2 ^ (Z.of_nat (length bits) - Z.of_nat k).
Proof.
  induction bits as [|b rest IH]; intros [|k]; cbn [startswith repeat length].
  - split; [intros _; split; [lia | simpl; lia] | done].
  - split; [discriminate | lia].
  - pose proof (bits_value_bounds (b :: rest)) as Hb. cbn [length] in Hb.
    rewrite Z.sub_0_r. split; [intros _; split; [lia | lia] | done].
  - rewrite andb_true_iff, IH. cbn [bits_value].
    pose proof (bits_value_bounds rest) as Hb.
    replace (Z.of_nat (S (length rest)) - Z.of_nat (S k))
      with (Z.of_nat (length rest) - Z.of_nat k) by lia.
    destruct b; simpl Z.b2z; cbn [Bool.eqb].
    + split.
      * intros [Hf _]. discriminate Hf.
      * intros [Hk Hlt]. exfalso.
        assert (2 ^ (Z.of_nat (length rest) - Z.of_nat k)
                ≤ 2 ^ Z.of_nat (length rest))
          by (apply Z.pow_le_mono_r; lia).
        lia.
    + split.
      * intros [_ [? ?]]. split; lia.
      * intros [? ?]. split; [done|]. split; lia.
Qed.

Lemma length_digest (msg : bytes) : length (SHA256.digest msg) = 32%nat.
Proof.
  unfold SHA256.digest. cbn [map concat]. rewrite !length_app, !length_big_endian.
  reflexivity.
Qed.

Section Difficulty.


End Difficulty.

(** ** More on blocks *)

Section BlockMore.
Context `{Collaborators Transaction UnspentTxOut TransactionPool Wallet Decimal}.
Implicit Types (b self other : Block.t Transaction) (ph : option bytes)
  (ts : datetime) (data : list Transaction).

Lemma eqb_eq self other : Block.eqb self other = true ↔ self = other.
Proof.
  unfold Block.eqb. rewrite !andb_true_iff, !bool_decide_eq_true.
  destruct self, other. cbn. split.
  - intros [[[[[[-> ->] ->] ->] ->] ->] ->]. done.
  - intros [= -> -> -> -> -> -> ->]. done.
Qed.



Lemma find_from_Ok fuel : ∀ index ph ts data d start b,
  Block.find_from fuel index ph ts data d start = Some (Ok b) →
  ∃ k : nat,
    (k < fuel)%nat
    ∧ Block.conforming index ph ts data d (start + Z.of_nat k) = true
    ∧ (∀ j : nat, (j < k)%nat →
         Block.conforming index ph ts data d (start + Z.of_nat j) = false)
    ∧ Block.init index ph ts data d (start + Z.of_nat k) = Ok b.
Proof.
  induction fuel as [|fuel IH]; intros index ph ts data d start b Hf; [done|].
  cbn [Block.find_from] in Hf.
  destruct (Block.calculate_hash index ph ts data d start) as [h|e] eqn:Hh;
    [|discriminate].
  destruct (Block.hash_matches_difficulty h d) eqn:Hm.
  - injection Hf as Hf. exists 0%nat. rewrite Z.add_0_r.
    split; [lia|]. split; [unfold Block.conforming; by rewrite Hh|].
    split; [intros; lia | done].
  - apply IH in Hf as (k & Hk & Hc & Hlt & Hb). exists (S k).
    replace (start + Z.of_nat (S k)) with (start + 1 + Z.of_nat k) by lia.
    split; [lia|]. split; [done|]. split; [|done].
    intros [|j] Hj.
    + rewrite Z.add_0_r. unfold Block.conforming. by rewrite Hh.
    + replace (start + Z.of_nat (S j)) with (start + 1 + Z.of_nat j) by lia.
      apply Hlt. lia.
Qed.

Lemma find_returns_valid fuel index ph ts data d b :
  Block.find fuel index ph ts data d = Some (Ok b) →
  Block.index b = index ∧ Block.previous_hash b = ph
  ∧ Block.timestamp b = ts ∧ Block.data b = data ∧ Block.difficulty b = d
  ∧ Block.has_valid_hash b = Ok true.
Proof.
  intros (k & Hk & Hc & Hlt & Hb)%find_from_Ok. rewrite Z.add_0_l in *.
  apply init_Ok in Hb as (h & Hh & ->).
  assert (Hm : Block.hash_matches_difficulty h d = true).
  { unfold Block.conforming in Hc. by rewrite Hh in Hc. }
  repeat apply conj; try done.
  rewrite has_valid_hash_consistent by exact Hh.
  cbn [Block.hash Block.difficulty]. by rewrite Hm.
Qed.

(** X4: a block that [find] returns holds the arguments of the call, the
    hash of its fields and the first nonce, counted from 0, that conforms;
    it passes [has_valid_hash]. *)
Theorem find_returns_a_valid_block fuel index ph ts data d b :
  Block.find fuel index ph ts data d = Some (Ok b) →
  Block.index b = index ∧ Block.previous_hash b = ph
  ∧ Block.timestamp b = ts ∧ Block.data b = data ∧ Block.difficulty b = d
  ∧ 0 ≤ Block.nonce b < Z.of_nat fuel
  ∧ (∀ j, 0 ≤ j < Block.nonce b → Block.conforming index ph ts data d j = false)
  ∧ Block.hash_matches_difficulty (Block.hash b) d = true
  ∧ Block.has_valid_hash b = Ok true.
Proof.
  intros (k & Hk & Hc & Hlt & Hb)%find_from_Ok. rewrite Z.add_0_l in *.
  apply init_Ok in Hb as (h & Hh & ->).
  assert (Hm : Block.hash_matches_difficulty h d = true).
  { unfold Block.conforming in Hc. by rewrite Hh in Hc. }
  assert (Hv : Block.has_valid_hash (Block.mk index ph ts data d (Z.of_nat k) h)
               = Ok true).
  { rewrite has_valid_hash_consistent by exact Hh.
    cbn [Block.hash Block.difficulty]. by rewrite Hm. }
  cbn [Block.index Block.previous_hash Block.timestamp Block.data
       Block.difficulty Block.nonce Block.hash].
  repeat apply conj; try done; try lia.
  intros j Hj. specialize (Hlt (Z.to_nat j)).
  rewrite Z.add_0_l, Z2Nat.id in Hlt by lia. apply Hlt. lia.
Qed.

(** X5: no search succeeds for a difficulty above 256, the number of bits
    of a digest: whatever the number of turns, [find] does not return a
    block. *)
Theorem find_above_256_never_returns fuel index ph ts data d b :
  256 < d → Block.find fuel index ph ts data d ≠ Some (Ok b).
Proof.
  intros Hd (k & _ & Hc & _)%find_from_Ok.
  unfold Block.conforming in Hc.
  destruct (Block.calculate_hash _ _ _ _ _ _) as [h|e] eqn:Hh; [|discriminate].
  pose proof (calculate_hash_Ok _ _ _ _ _ _ _ Hh) as (Hi & Ht & Hf & Hn).
  rewrite calculate_hash_fits in Hh by assumption. injection Hh as <-.
  unfold Block.hash_matches_difficulty in Hc.
  apply startswith_zeros in Hc as [Hlen _].
  rewrite length_bits_of, length_digest in Hlen. lia.
Qed.

End BlockMore.

Lemma find_returns_a_valid_block_witness :
  Block.find 100 1 None 1528359030500000 [5] 5 = Some (Ok Ledger.mined_block)
  ∧ Block.nonce Ledger.mined_block = 10
  ∧ Block.has_valid_hash Ledger.mined_block = Ok true.
Proof.
  assert (Hf : Block.find 100 1 None 1528359030500000 [5] 5
               = Some (Ok Ledger.mined_block)) by (vm_compute; reflexivity).
  split; [exact Hf|]. split; [reflexivity|].
  exact (proj2 (proj2 (proj2 (proj2 (proj2 (proj2 (proj2 (proj2
           (find_returns_a_valid_block _ _ _ _ _ _ _ Hf))))))))).
Defined.

Lemma find_above_256_never_returns_witness :
  256 < 257
  ∧ Block.find 3 1 None 1528359030500000 [5] 257 ≠ Some (Ok Ledger.mined_block).
Proof.
  assert (Hd : 256 < 257) by lia.
  split; [exact Hd|].
  exact (find_above_256_never_returns 3 1 None 1528359030500000 [5] 257
           Ledger.mined_block Hd).
Defined.

Section Reading.
Context `{Collaborators Transaction UnspentTxOut TransactionPool Wallet Decimal}.


End Reading.


(** ** More on the chain *)

Section ChainMore.
Context `{Collaborators Transaction UnspentTxOut TransactionPool Wallet Decimal}.
Implicit Types self : Blockchain.t (Transaction := Transaction)
  (UnspentTxOut := UnspentTxOut) (TransactionPool := TransactionPool).
Implicit Types (b : Block.t Transaction) (tx_pool : TransactionPool).

(** X7: a new chain holds the genesis block only: height 0, no previous
    hash, the timestamp 1528359030, no data, difficulty 0 and nonce 0, with
    the hash 249a...d560, which is valid; no application is attached, there
    are no unspent outputs, the accumulated difficulty is 1 and the next
    difficulty 0. *)
Theorem init_state tx_pool :
  ∃ g,
    Blockchain.init tx_pool = Ok (Blockchain.mk [g] None tx_pool (@nil UnspentTxOut))
    ∧ g = Block.mk 0 None (seconds 1528359030) [] 0 0 (Block.hash g)
    ∧ bytes_hex (Block.hash g)
      = "249a81e2706126a804db7028bc2576c44418729a15a45c07c7a770c9a81cd560"%string
    ∧ Block.has_valid_hash g = Ok true
    ∧ Block.is_genesis g = Ok true
    ∧ Blockchain.get_latest (Blockchain.mk [g] None tx_pool (@nil UnspentTxOut)) = Ok g
    ∧ Blockchain.get_accumulated_difficulty [g] = 1
    ∧ Blockchain.get_difficulty (Blockchain.mk [g] None tx_pool (@nil UnspentTxOut)) = Ok 0.
Proof.
  set (g := Block.mk (Transaction := Transaction) 0 None (fromtimestamp 1528359030)
              [] 0 0
              (SHA256.digest
                 (Block.canonical_bytes 0 None (fromtimestamp 1528359030) [] 0 0))).
  assert (Hh : Block.calculate_hash_for_block g = Ok (Block.hash g)).
  { apply calculate_hash_fits; unfold Block.fits; vm_compute; split; congruence. }
  exists g. split.
  { unfold Blockchain.init. rewrite genesis_block_Ok. reflexivity. }
  split; [reflexivity|]. split; [vm_compute; reflexivity|].
  split.
  { rewrite (has_valid_hash_consistent g Hh). vm_compute. reflexivity. }
  split.
  { unfold Block.is_genesis. rewrite genesis_block_Ok. cbn [mbind Result_bind].
    f_equal; apply eqb_eq; reflexivity. }
  repeat apply conj; reflexivity.
Qed.

(** X8: [add_block] either returns true, having appended the block that
    the tip accepts as its successor and the ledger accepts, replaced the
    unspent outputs by what the ledger returned and told the pool, or it
    leaves the state exactly as it was: when it returns false (a block the
    tip or the ledger rejects) and when it raises (an object that is not a
    block: a bad-request error that carries its raw form when it has
    one). *)
Theorem add_block_all_or_nothing now (o : pyobj) self r self' :
  Blockchain.add_block now o self = (r, self') →
  (r = Ok true
   ∧ ∃ b latest u,
       o = PyBlock b
       ∧ Blockchain.get_latest self = Ok latest
       ∧ Block.is_valid_next now latest b = Ok true
       ∧ process_transactions (Block.data b) (Blockchain.unspent_tx_outs self)
           (Block.index b) = Some u
       ∧ self' = Blockchain.mk (Blockchain.blocks self ++ [b])
                   (Blockchain.p2p_application self)
                   (pool_update u (Blockchain.tx_pool self)) u)
  ∨ (self' = self
     ∧ match o with
       | PyOther (Some raw) => r = Raise (BadRequestError "invalid block" (Some raw))
       | PyOther None => r = Raise AttributeError
       | PyBlock b =>
           r = Ok false
           ∧ (∃ latest,
                Blockchain.get_latest self = Ok latest
                ∧ (Block.is_valid_next now latest b = Ok false
                   ∨ process_transactions (Block.data b)
                       (Blockchain.unspent_tx_outs self) (Block.index b) = None))
           ∨ r = Raise IndexError ∧ Blockchain.blocks self = []
           ∨ r = Raise OverflowError
       end).
Proof.
  destruct o as [b|[raw|]].
  2,3: intros [= <- <-]; right; done.
  rewrite add_block_run.
  destruct (Blockchain.get_latest self) as [latest|e] eqn:Hl.
  2: { intros [= <- <-]. right. split; [done|]. right. left.
       unfold Blockchain.get_latest in Hl.
       destruct (last (Blockchain.blocks self)) eqn:Hlast; [discriminate|].
       injection Hl as <-. split; [done|]. by apply last_None. }
  destruct (Block.is_valid_next now latest b) as [[|]|e] eqn:Hv.
  - destruct (process_transactions _ _ _) as [u|] eqn:Hp; intros [= <- <-].
    + left. split; [done|]. exists b, latest, u. done.
    + right. split; [done|]. left. split; [done|]. exists latest. auto.
  - intros [= <- <-]. right. split; [done|]. left. split; [done|].
    exists latest. auto.
  - intros [= <- <-]. right. split; [done|]. right. right.
    by rewrite (is_valid_next_Raise _ _ _ _ Hv).
Qed.


End ChainMore.

Lemma add_block_all_or_nothing_witness :
  Blockchain.add_block 1528359050000000 (PyBlock Ledger.light_block) Ledger.started
  = (Ok true, Blockchain.mk [Ledger.genesis; Ledger.light_block] (Some []) [] [11])
  ∧ ((Ok true : Result bool) = Ok true
     ∧ ∃ b latest u,
         PyBlock Ledger.light_block = PyBlock b
         ∧ Blockchain.get_latest Ledger.started = Ok latest
         ∧ Block.is_valid_next 1528359050000000 latest b = Ok true
         ∧ process_transactions (Block.data b)
             (Blockchain.unspent_tx_outs Ledger.started) (Block.index b) = Some u
         ∧ Blockchain.mk [Ledger.genesis; Ledger.light_block] (Some []) [] [11]
           = Blockchain.mk (Blockchain.blocks Ledger.started ++ [b])
               (Blockchain.p2p_application Ledger.started)
               (pool_update u (Blockchain.tx_pool Ledger.started)) u).
Proof.
  assert (Hrun :
    Blockchain.add_block 1528359050000000 (PyBlock Ledger.light_block) Ledger.started
    = (Ok true, Blockchain.mk [Ledger.genesis; Ledger.light_block] (Some []) [] [11]))
    by (vm_compute; reflexivity).
  split; [exact Hrun|].
  destruct (add_block_all_or_nothing _ _ _ _ _ Hrun) as [Hyes | [_ Hno]].
  - exact Hyes.
  - exfalso. destruct Hno as [[Hf _] | [[Hf _] | Hf]]; discriminate Hf.
Defined.


Section Linked.
Context `{Collaborators Transaction UnspentTxOut TransactionPool Wallet Decimal}.
Implicit Types self : Blockchain.t (Transaction := Transaction)
  (UnspentTxOut := UnspentTxOut) (TransactionPool := TransactionPool).
Implicit Types (b g p : Block.t Transaction) (rest : list (Block.t Transaction)).

Lemma has_valid_hash_true b :
  Block.has_valid_hash b = Ok true
  ↔ Block.calculate_hash_for_block b = Ok (Block.hash b)
    ∧ Block.hash_matches_difficulty (Block.hash b) (Block.difficulty b) = true.
Proof.
  unfold Block.has_valid_hash. split.
  - intros (h & Hh & Hv)%bind_Ok.
    destruct (bool_decide (h = Block.hash b)) eqn:He; cbn [negb] in Hv; [|discriminate].
    apply bool_decide_eq_true in He as ->.
    destruct (Block.hash_matches_difficulty _ _); [done|discriminate].
  - intros [-> ->]. cbn. by rewrite bool_decide_eq_true_2.
Qed.

Lemma chained_lookup rest : ∀ g (i : nat) b,
  Blockchain.chained g rest →
  (g :: rest) !! S i = Some b →
  ∃ p, (g :: rest) !! i = Some p ∧ Blockchain.follows p b
       ∧ Block.index b = Block.index g + Z.of_nat (S i).
Proof.
  induction rest as [|c rest IH]; intros g i b Hch Hb; [done|].
  destruct Hch as [Hgc Hch]. destruct i as [|i].
  - injection Hb as <-. exists g. split; [done|]. split; [done|].
    destruct Hgc as (Hi & _). lia.
  - destruct (IH c i b Hch Hb) as (p & Hp & Hf & Hi).
    exists p. split; [done|]. split; [done|].
    destruct Hgc as (Hi' & _). lia.
Qed.

Lemma genesis_index g : Block.genesis_block = Ok g → Block.index g = 0.
Proof. rewrite genesis_block_Ok. by intros [= <-]. Qed.

Lemma genesis_difficulty g : Block.genesis_block = Ok g → Block.difficulty g = 0.
Proof. rewrite genesis_block_Ok. by intros [= <-]. Qed.

(** What holds of the block at position [i] of a well-formed chain. *)
Lemma well_formed_lookup self (i : nat) b :
  Blockchain.well_formed self →
  Blockchain.blocks self !! i = Some b →
  Block.index b = Z.of_nat i
  ∧ Block.fits (Block.difficulty b)
  ∧ (i ≠ 0%nat →
     ∃ p, Blockchain.blocks self !! (i - 1)%nat = Some p
          ∧ Blockchain.follows p b).
Proof.
  intros (g & rest & Hg & Hb & Hch) Hi. rewrite Hb in *.
  destruct i as [|i].
  - injection Hi as <-. split; [by apply genesis_index|]. split; [|done].
    rewrite (genesis_difficulty g Hg). unfold Block.fits. lia.
  - destruct (chained_lookup rest g i b Hch Hi) as (p & Hp & Hf & Hidx).
    rewrite (genesis_index g Hg) in Hidx. split; [lia|]. split.
    + destruct Hf as (_ & _ & _ & Hv). apply has_valid_hash_true in Hv as [Hh _].
      by apply calculate_hash_Ok in Hh as (_ & _ & ? & _).
    + intros _. exists p. replace (S i - 1)%nat with i by lia. done.
Qed.


End Linked.


Section NextDifficulty.
Context `{Collaborators Transaction UnspentTxOut TransactionPool Wallet Decimal}.
Implicit Types self : Blockchain.t (Transaction := Transaction)
  (UnspentTxOut := UnspentTxOut) (TransactionPool := TransactionPool).
Implicit Types (b tip : Block.t Transaction).

Lemma well_formed_tip self :
  Blockchain.well_formed self →
  ∃ tip,
    Blockchain.get_latest self = Ok tip
    ∧ Blockchain.blocks self !! (length (Blockchain.blocks self) - 1)%nat = Some tip
    ∧ Block.index tip = Z.of_nat (length (Blockchain.blocks self)) - 1.
Proof.
  intros Hwf. pose proof Hwf as (g & rest & _ & Hb & _).
  unfold Blockchain.get_latest. rewrite last_lookup.
  replace (pred (length (Blockchain.blocks self)))
    with (length (Blockchain.blocks self) - 1)%nat by lia.
  destruct (Blockchain.blocks self !! (length (Blockchain.blocks self) - 1)%nat)
    as [tip|] eqn:Ht.
  - exists tip. split; [done|]. split; [done|].
    destruct (well_formed_lookup self _ tip Hwf Ht) as (Hi & _).
    rewrite Hb in *. cbn [length] in *. lia.
  - apply lookup_ge_None in Ht. rewrite Hb in Ht. cbn [length] in Ht. lia.
Qed.

Lemma get_adjusted_difficulty_at self reference tip :
  Blockchain.blocks self
    !! Z.to_nat (Z.max 0 (Z.of_nat (length (Blockchain.blocks self)) - 10))
  = Some reference →
  Blockchain.get_latest self = Ok tip →
  Blockchain.get_adjusted_difficulty self = Ok (Blockchain.retarget reference tip).
Proof.
  intros Hr Ht. unfold Blockchain.get_adjusted_difficulty, Blockchain.blocks_at.
  unfold Blockchain.DIFFICULTY_ADJUSTMENT_INTERVAL,
    Blockchain.BLOCK_GENERATION_INTERVAL.
  rewrite Hr, Ht. cbn [mbind Result_bind].
  unfold Blockchain.retarget, total_seconds_lt, total_seconds_gt.
  change (10 * 10 / 2) with 50. change (10 * 10 * 2) with 200.
  repeat destruct (_ <? _); done.
Qed.

(** X11: on a chain created by the constructor and used through its
    operations, [get_latest] and [get_difficulty] never raise: the tip is
    the block whose index is the length of the chain minus one, and the
    next difficulty is not negative. *)
Theorem reachable_get_difficulty_total self :
  Blockchain.reachable self →
  ∃ tip d,
    Blockchain.get_latest self = Ok tip
    ∧ Block.index tip = Z.of_nat (length (Blockchain.blocks self)) - 1
    ∧ Blockchain.get_difficulty self = Ok d
    ∧ 0 ≤ d.
Proof.
  intros Hwf%reachable_well_formed.
  destruct (well_formed_tip self Hwf) as (tip & Ht & Hl & Hi).
  destruct (well_formed_lookup self _ tip Hwf Hl) as (_ & Hfit & _).
  unfold Blockchain.get_difficulty. rewrite Ht. cbn [mbind Result_bind].
  destruct (_ && _).
  - destruct (Blockchain.blocks self
                !! Z.to_nat (Z.max 0 (Z.of_nat (length (Blockchain.blocks self)) - 10)))
      as [reference|] eqn:Hr.
    + destruct (well_formed_lookup self _ reference Hwf Hr) as (_ & Hfr & _).
      rewrite (get_adjusted_difficulty_at self reference tip Hr Ht).
      exists tip, (Blockchain.retarget reference tip). split; [done|]. split; [done|].
      split; [done|]. unfold Blockchain.retarget, Block.fits in *.
      repeat destruct (_ <? _); lia.
    + apply lookup_ge_None in Hr.
      pose proof Hwf as (g & rest & _ & Hb & _). rewrite Hb in Hr.
      cbn [length] in Hr. lia.
  - exists tip, (Block.difficulty tip). unfold Block.fits in Hfit.
    repeat split; try done; lia.
Qed.

(** X12: on such a chain whose tip has a height [n > 0] that is a multiple
    of 10, the next difficulty is retargeted from the block of height
    [n - 9], the tenth block counted from the tip: one more than its
    difficulty when it is less than 50 seconds before the tip, one less
    (not below 0) when more than 200 seconds, the same otherwise; on any
    other tip the next difficulty is that of the tip. *)
Theorem reachable_get_difficulty_reference self tip :
  Blockchain.reachable self →
  Blockchain.get_latest self = Ok tip →
  (Block.index tip mod 10 = 0 → Block.index tip ≠ 0 →
   ∃ reference,
     Blockchain.blocks self !! Z.to_nat (Block.index tip - 9) = Some reference
     ∧ Block.index reference = Block.index tip - 9
     ∧ Blockchain.get_difficulty self = Ok (Blockchain.retarget reference tip))
  ∧ (Block.index tip mod 10 ≠ 0 ∨ Block.index tip = 0 →
     Blockchain.get_difficulty self = Ok (Block.difficulty tip)).
Proof.
  intros Hwf%reachable_well_formed Ht.
  destruct (well_formed_tip self Hwf) as (tip' & Ht' & Hl & Hi).
  rewrite Ht in Ht'. injection Ht' as <-.
  pose proof (lookup_lt_Some _ _ _ Hl) as Hlen0.
  unfold Blockchain.get_difficulty, Blockchain.DIFFICULTY_ADJUSTMENT_INTERVAL.
  rewrite Ht. cbn [mbind Result_bind]. split.
  - intros Hmod Hne.
    rewrite bool_decide_eq_true_2, bool_decide_eq_false_2 by done. cbn [andb negb].
    assert (Hlen : 10 ≤ Block.index tip).
    { destruct (Z.le_gt_cases 10 (Block.index tip)) as [|Hlt]; [done|].
      rewrite Z.mod_small in Hmod by lia. lia. }
    assert (Hpos : Z.to_nat (Z.max 0 (Z.of_nat (length (Blockchain.blocks self)) - 10))
                   = Z.to_nat (Block.index tip - 9)) by (f_equal; lia).
    destruct (Blockchain.blocks self !! Z.to_nat (Block.index tip - 9))
      as [reference|] eqn:Hr.
    + exists reference. split; [done|].
      destruct (well_formed_lookup self _ reference Hwf Hr) as (Hir & _).
      split; [lia|]. apply get_adjusted_difficulty_at; [|done]. by rewrite Hpos.
    + apply lookup_ge_None in Hr. lia.
  - intros [Hmod | Hz].
    + by rewrite bool_decide_eq_false_2.
    + rewrite (bool_decide_eq_true_2 (Block.index tip = 0)) by done.
      by rewrite andb_false_r.
Qed.

End NextDifficulty.

Lemma mine_reachable (n : nat) : ∀ now self self',
  Blockchain.reachable self → Ledger.mine n now self = Some self' →
  Blockchain.reachable self'.
Proof.
  induction n as [|n IH]; intros now self self' Hr Hm.
  - injection Hm as <-. exact Hr.
  - cbn [Ledger.mine] in Hm.
    destruct (Blockchain.generate_raw_next_block 1 now now [] self)
      as [[[[b|]|e] s1]|] eqn:Hg; try discriminate.
    apply (IH _ _ _ (reachable_step _ _ Hr
             (Blockchain.step_generate_raw_next_block _ _ _ _ _ _ _ Hg)) Hm).
Qed.

Lemma ten_blocks_reachable : Blockchain.reachable Ledger.ten_blocks.
Proof.
  apply (mine_reachable 10 1528360030000000 Ledger.started);
    [exact started_reachable|]. vm_compute. reflexivity.
Qed.

Lemma reachable_get_difficulty_total_witness :
  Blockchain.reachable Ledger.ten_blocks
  ∧ ∃ tip d,
      Blockchain.get_latest Ledger.ten_blocks = Ok tip
      ∧ Block.index tip
        = Z.of_nat (length (Blockchain.blocks Ledger.ten_blocks)) - 1
      ∧ Blockchain.get_difficulty Ledger.ten_blocks = Ok d
      ∧ 0 ≤ d.
Proof.
  split; [exact ten_blocks_reachable|].
  exact (reachable_get_difficulty_total Ledger.ten_blocks ten_blocks_reachable).
Defined.

Lemma reachable_get_difficulty_reference_witness :
  Blockchain.reachable Ledger.ten_blocks
  ∧ ∃ tip,
      Blockchain.get_latest Ledger.ten_blocks = Ok tip
      ∧ ∃ reference,
          Blockchain.blocks Ledger.ten_blocks !! Z.to_nat (Block.index tip - 9)
          = Some reference
          ∧ Block.index reference = Block.index tip - 9
          ∧ Blockchain.get_difficulty Ledger.ten_blocks
            = Ok (Blockchain.retarget reference tip).
Proof.
  split; [exact ten_blocks_reachable|].
  destruct (Blockchain.get_latest Ledger.ten_blocks) as [tip|e] eqn:Ht.
  - exists tip. split; [reflexivity|].
    assert (Hi : Block.index tip = 10)
      by (vm_compute in Ht; injection Ht as <-; reflexivity).
    refine (proj1 (reachable_get_difficulty_reference Ledger.ten_blocks tip
                     ten_blocks_reachable Ht) _ _).
    + rewrite Hi. reflexivity.
    + rewrite Hi. discriminate.
  - exfalso. vm_compute in Ht. discriminate Ht.
Defined.

Section Weight.
Context `{Collaborators Transaction UnspentTxOut TransactionPool Wallet Decimal}.
Implicit Types self : Blockchain.t (Transaction := Transaction)
  (UnspentTxOut := UnspentTxOut) (TransactionPool := TransactionPool).
Implicit Types (b : Block.t Transaction) (l : list (Block.t Transaction)).

Lemma sum_snoc (zs : list Z) (z : Z) :
  Blockchain.sum (zs ++ [z]) = Blockchain.sum zs + z.
Proof. unfold Blockchain.sum. by rewrite fold_left_app. Qed.

Lemma get_accumulated_difficulty_snoc l b :
  Blockchain.get_accumulated_difficulty (l ++ [b])
  = Blockchain.get_accumulated_difficulty l + 2 ^ Block.difficulty b.
Proof.
  unfold Blockchain.get_accumulated_difficulty. rewrite map_app. cbn [map].
  by rewrite sum_snoc.
Qed.

(** X13: the accumulated difficulty of a chain created by the constructor
    never goes down: whatever is called, it stays the same when the blocks
    stay the same and it grows strictly when they change. *)
Theorem accumulated_difficulty_never_decreases self self' :
  Blockchain.reachable self →
  Blockchain.step self self' →
  (Blockchain.blocks self' = Blockchain.blocks self
   ∨ Blockchain.get_accumulated_difficulty (Blockchain.blocks self)
     < Blockchain.get_accumulated_difficulty (Blockchain.blocks self'))
  ∧ Blockchain.get_accumulated_difficulty (Blockchain.blocks self)
    ≤ Blockchain.get_accumulated_difficulty (Blockchain.blocks self').
Proof.
  intros Hr Hstep.
  pose proof (reachable_well_formed _ (reachable_step _ _ Hr Hstep)) as Hwf'.
  apply step_effect in Hstep as [[Hsame _] | [Happ | Hsw]].
  - rewrite Hsame. split; [by left | lia].
  - destruct Happ as (now & latest & b & u & _ & _ & _ & Hb & _).
    assert (Hlast : Blockchain.blocks self' !! length (Blockchain.blocks self) = Some b).
    { rewrite Hb. by apply list_lookup_middle. }
    destruct (well_formed_lookup self' _ b Hwf' Hlast) as (_ & Hfit & _).
    rewrite Hb, get_accumulated_difficulty_snoc.
    assert (0 < 2 ^ Block.difficulty b)
      by (apply Z.pow_pos_nonneg; unfold Block.fits in Hfit; lia).
    split; [right|]; lia.
  - destruct Hsw as (now & u & _ & Hlt & _). split; [by right | lia].
Qed.

(** X14: when no application is attached, a candidate that wins still
    replaces the chain, the unspent outputs and the pool, and only then does
    [replace] raise [AttributeError] in place of returning true. *)
Theorem replace_unattached_swaps_then_raises now (l : list pyobj) new u self :
  Blockchain.p2p_application self = None →
  Blockchain.validate_blocks now (PyList l) = Ok (Some u) →
  Blockchain.as_blocks l = Ok new →
  Blockchain.get_accumulated_difficulty (Blockchain.blocks self)
  < Blockchain.get_accumulated_difficulty new →
  Blockchain.replace now (PyList l) self
  = (Raise AttributeError,
     Blockchain.mk new None (pool_update u (Blockchain.tx_pool self)) u).
Proof.
  intros Hp Hv Has Hlt. rewrite replace_run, Hv, Has.
  apply Z.ltb_lt in Hlt. rewrite Hlt. cbv zeta. rewrite Hp. done.
Qed.

End Weight.

Lemma accumulated_difficulty_never_decreases_witness :
  Blockchain.reachable Ledger.started
  ∧ Blockchain.step Ledger.started
      (Blockchain.mk [Ledger.genesis; Ledger.light_block] (Some []) [] [11])
  ∧ Blockchain.get_accumulated_difficulty (Blockchain.blocks Ledger.started)
    ≤ Blockchain.get_accumulated_difficulty [Ledger.genesis; Ledger.light_block].
Proof.
  assert (Hs : Blockchain.step Ledger.started
                 (Blockchain.mk [Ledger.genesis; Ledger.light_block] (Some []) [] [11])).
  { apply (Blockchain.step_add_block 1528359050000000 (PyBlock Ledger.light_block)
             Ledger.started (Ok true)). vm_compute. reflexivity. }
  split; [exact started_reachable|]. split; [exact Hs|].
  exact (proj2 (accumulated_difficulty_never_decreases _ _ started_reachable Hs)).
Defined.

Lemma replace_unattached_swaps_then_raises_witness :
  Blockchain.p2p_application Ledger.unattached = None
  ∧ Blockchain.validate_blocks (λ _, 1528359050000000)
      (PyList [PyBlock Ledger.genesis; PyBlock Ledger.heavy_block]) = Ok (Some [])
  ∧ Blockchain.as_blocks [PyBlock Ledger.genesis; PyBlock Ledger.heavy_block]
    = Ok [Ledger.genesis; Ledger.heavy_block]
  ∧ Blockchain.get_accumulated_difficulty
      (Blockchain.blocks Ledger.unattached)
    < Blockchain.get_accumulated_difficulty [Ledger.genesis; Ledger.heavy_block]
  ∧ Blockchain.replace (λ _, 1528359050000000)
      (PyList [PyBlock Ledger.genesis; PyBlock Ledger.heavy_block])
      Ledger.unattached
    = (Raise AttributeError,
       Blockchain.mk [Ledger.genesis; Ledger.heavy_block] None [] []).
Proof.
  assert (H1 : Blockchain.p2p_application Ledger.unattached
               = None) by reflexivity.
  assert (H2 : Blockchain.validate_blocks (λ _, 1528359050000000)
                 (PyList [PyBlock Ledger.genesis; PyBlock Ledger.heavy_block])
               = Ok (Some [])) by (vm_compute; reflexivity).
  assert (H3 : Blockchain.as_blocks [PyBlock Ledger.genesis; PyBlock Ledger.heavy_block]
               = Ok [Ledger.genesis; Ledger.heavy_block]) by reflexivity.
  assert (H4 : Blockchain.get_accumulated_difficulty
                 (Blockchain.blocks Ledger.unattached)
               < Blockchain.get_accumulated_difficulty
                   [Ledger.genesis; Ledger.heavy_block]) by (vm_compute; reflexivity).
  split; [exact H1|]. split; [exact H2|]. split; [exact H3|]. split; [exact H4|].
  exact (replace_unattached_swaps_then_raises _ _ _ _ _ H1 H2 H3 H4).
Defined.

(** ** Lookups *)

Section Lookups.
Context `{Collaborators Transaction UnspentTxOut TransactionPool Wallet Decimal}.
Implicit Types self : Blockchain.t (Transaction := Transaction)
  (UnspentTxOut := UnspentTxOut) (TransactionPool := TransactionPool).
Implicit Types (b : Block.t Transaction) (tx : Transaction).

(** X15: [get_block_with_hash] returns a block of the chain that has the
    hash asked for, the first one in the chain; it raises exactly when no
    block of the chain has it, and then the not-found error with the hash
    in hexadecimal; the hash of any block of the chain is found. *)
Theorem get_block_with_hash_found_or_not self (hash : bytes) :
  (∀ b, Blockchain.get_block_with_hash self hash = Ok b →
        ∃ i : nat,
          Blockchain.blocks self !! i = Some b ∧ Block.hash b = hash
          ∧ ∀ (j : nat) b', (j < i)%nat → Blockchain.blocks self !! j = Some b' →
                            Block.hash b' ≠ hash)
  ∧ (∀ e, Blockchain.get_block_with_hash self hash = Raise e →
          e = NotFoundError "block not found"
                (Some (JDict {[ "hash"%string := JStr (bytes_to_hex hash) ]}))
          ∧ ∀ b, b ∈ Blockchain.blocks self → Block.hash b ≠ hash)
  ∧ (∀ b, b ∈ Blockchain.blocks self →
          ∃ b', Blockchain.get_block_with_hash self (Block.hash b) = Ok b'
                ∧ Block.hash b' = Block.hash b).
Proof.
  unfold Blockchain.get_block_with_hash.
  assert (Hfind : ∀ (l : list (Block.t Transaction)) b,
    List.find (λ block, bool_decide (Block.hash block = hash)) l = Some b →
    ∃ i : nat, l !! i = Some b ∧ Block.hash b = hash
      ∧ ∀ (j : nat) b', (j < i)%nat → l !! j = Some b' → Block.hash b' ≠ hash).
  { induction l as [|c l IH]; intros b Hf; [discriminate|].
    cbn [List.find] in Hf.
    destruct (bool_decide (Block.hash c = hash)) eqn:Hc.
    - injection Hf as <-. apply bool_decide_eq_true in Hc.
      exists 0%nat. split; [done|]. split; [done|]. intros; lia.
    - apply bool_decide_eq_false in Hc.
      destruct (IH b Hf) as (i & Hi & Hh & Hlt). exists (S i).
      split; [done|]. split; [done|].
      intros [|j] b' Hj Hb'; [by injection Hb' as <-|].
      apply (Hlt j b'); [lia | done]. }
  split; [|split].
  - intros b Hb. apply Hfind.
    destruct (List.find _ _) as [b0|]; [by injection Hb as -> | discriminate].
  - intros e He. destruct (List.find _ _) as [b0|] eqn:Hf; [discriminate|].
    injection He as <-. split; [done|]. intros b Hb%list_elem_of_In.
    pose proof (find_none _ _ Hf b Hb) as Hn. cbn in Hn.
    by apply bool_decide_eq_false in Hn.
  - intros b Hb%list_elem_of_In.
    destruct (List.find (λ block, bool_decide (Block.hash block = Block.hash b))
                (Blockchain.blocks self)) as [b'|] eqn:Hf.
    + exists b'. split; [done|]. apply find_some in Hf as [_ Hf].
      by apply bool_decide_eq_true in Hf.
    + pose proof (find_none _ _ Hf b Hb) as Hn. cbn in Hn.
      by apply bool_decide_eq_false in Hn.
Qed.

(** X16: [get_transaction_with_id] returns a transaction, with the
    identifier asked for, of a block of the chain; it raises exactly when
    no transaction of any block has it, and then the not-found error with
    the identifier in hexadecimal. *)
Theorem get_transaction_with_id_found_or_not self (transaction_id : bytes) :
  (∀ tx, Blockchain.get_transaction_with_id self transaction_id = Ok tx →
         tx_id tx = transaction_id
         ∧ ∃ b, b ∈ Blockchain.blocks self ∧ tx ∈ Block.data b)
  ∧ (∀ e, Blockchain.get_transaction_with_id self transaction_id = Raise e →
          e = NotFoundError "transaction not found"
                (Some (JDict {[ "id"%string := JStr (bytes_to_hex transaction_id) ]}))
          ∧ ∀ b tx, b ∈ Blockchain.blocks self → tx ∈ Block.data b →
                    tx_id tx ≠ transaction_id)
  ∧ (∀ b tx, b ∈ Blockchain.blocks self → tx ∈ Block.data b →
             ∃ tx', Blockchain.get_transaction_with_id self (tx_id tx) = Ok tx'
                    ∧ tx_id tx' = tx_id tx).
Proof.
  unfold Blockchain.get_transaction_with_id.
  assert (Hin : ∀ tx, In tx (concat (map Block.data (Blockchain.blocks self)))
                      ↔ ∃ b, b ∈ Blockchain.blocks self ∧ tx ∈ Block.data b).
  { intros tx. rewrite in_concat. split.
    - intros (txs & (b & <- & Hb)%in_map_iff & Htx).
      exists b. by rewrite !list_elem_of_In.
    - intros (b & Hb%list_elem_of_In & Htx%list_elem_of_In).
      exists (Block.data b). split; [|done]. apply in_map_iff. eauto. }
  split; [|split].
  - intros tx Htx.
    destruct (List.find _ _) as [tx0|] eqn:Hf; [|discriminate].
    injection Htx as ->. apply find_some in Hf as [Hf1 Hf2].
    apply bool_decide_eq_true in Hf2. split; [done|]. by apply Hin.
  - intros e He. destruct (List.find _ _) as [tx0|] eqn:Hf; [discriminate|].
    injection He as <-. split; [done|]. intros b tx Hb Htx.
    assert (Htx' : In tx (concat (map Block.data (Blockchain.blocks self))))
      by (apply Hin; eauto).
    pose proof (find_none _ _ Hf tx Htx') as Hn. cbn in Hn.
    by apply bool_decide_eq_false in Hn.
  - intros b tx Hb Htx.
    assert (Htx' : In tx (concat (map Block.data (Blockchain.blocks self))))
      by (apply Hin; eauto).
    destruct (List.find (λ tx0, bool_decide (tx_id tx0 = tx_id tx))
                (concat (map Block.data (Blockchain.blocks self)))) as [tx'|] eqn:Hf.
    + exists tx'. split; [done|]. apply find_some in Hf as [_ Hf].
      by apply bool_decide_eq_true in Hf.
    + pose proof (find_none _ _ Hf tx Htx') as Hn. cbn in Hn.
      by apply bool_decide_eq_false in Hn.
Qed.

End Lookups.

(** ** Mining on the chain, and the pool *)

Section Generation.
Context `{Collaborators Transaction UnspentTxOut TransactionPool Wallet Decimal}.
Implicit Types self : Blockchain.t (Transaction := Transaction)
  (UnspentTxOut := UnspentTxOut) (TransactionPool := TransactionPool).
Implicit Types (b : Block.t Transaction) (wallet : Wallet).

Ltac run :=
  unfold mbind, Blockchain.M_bind, Blockchain.bind, Blockchain.get,
    Blockchain.put, Blockchain.lift, Blockchain.ret, Blockchain.raise in *.

(** X17: [generate_next_with_transaction] checks the address first and the
    amount second, before any mining: an invalid address raises the
    bad-request error that carries the address in hexadecimal, a valid
    address with an amount that is not a [Decimal] the one that carries the
    amount; the state is left as it was. *)
Theorem generate_next_with_transaction_bad_request
    fuel now now' wallet (receiver_address : bytes) (a : Blockchain.amount) self :
  (is_valid_address receiver_address = false →
   Blockchain.generate_next_with_transaction fuel now now' wallet
     receiver_address a self
   = Some (Raise (BadRequestError "invalid address"
                    (Some (JDict {[ "address"%string :=
                                      JStr (bytes_to_hex receiver_address) ]}))),
           self))
  ∧ (∀ v, is_valid_address receiver_address = true → a = Blockchain.AmountOther v →
          Blockchain.generate_next_with_transaction fuel now now' wallet
            receiver_address a self
          = Some (Raise (BadRequestError "invalid amount"
                           (Some (JDict {[ "amount"%string := v ]}))),
                  self)).
Proof.
  unfold Blockchain.generate_next_with_transaction. split.
  - intros ->. done.
  - intros v -> ->. done.
Qed.

Lemma generate_raw_next_block_Ok
    fuel now now' (data : list Transaction) self b self' :
  Blockchain.generate_raw_next_block fuel now now' data self
  = Some (Ok (Some b), self') →
  ∃ tip d u calls,
    Blockchain.get_latest self = Ok tip
    ∧ Blockchain.get_difficulty self = Ok d
    ∧ b = Block.mk (Block.index tip + 1) (Some (Block.hash tip)) now data d
            (Block.nonce b) (Block.hash b)
    ∧ Block.has_valid_hash b = Ok true
    ∧ process_transactions data (Blockchain.unspent_tx_outs self)
        (Block.index tip + 1) = Some u
    ∧ Blockchain.p2p_application self = Some calls
    ∧ self' = Blockchain.mk (Blockchain.blocks self ++ [b])
                (Some (calls ++ [Blockchain.BroadcastLatest
                                   (Blockchain.blocks self ++ [b])]))
                (pool_update u (Blockchain.tx_pool self)) u.
Proof.
  unfold Blockchain.generate_raw_next_block.
  destruct (Blockchain.get_latest self) as [tip|e] eqn:Ht; [|discriminate].
  destruct (Blockchain.get_difficulty self) as [d|e] eqn:Hd; [|discriminate].
  destruct (Block.find _ _ _ _ _ _) as [[nb|e]|] eqn:Hf; [|discriminate..].
  apply find_returns_valid in Hf as (Hi & Hp & Hts & Hda & Hdi & Hv).
  run. rewrite add_block_run, Ht.
  destruct (Block.is_valid_next now' tip nb) as [[|]|e] eqn:Hn; [|discriminate..].
  destruct (process_transactions _ _ _) as [u|] eqn:Hu; [|discriminate].
  unfold Blockchain.broadcast_latest. run. cbn.
  destruct (Blockchain.p2p_application self) as [calls|] eqn:Hc; [|discriminate].
  intros [= <- <-]. exists tip, d, u, calls.
  rewrite Hda, Hi in Hu.
  repeat apply conj; try done.
  destruct nb. cbn in *. congruence.
Qed.

(** X18: when [generate_raw_next_block] returns a block, the block is the
    successor of the tip that [find] mined: one more than its index, its
    hash as previous hash, the time of the call, the data given, the
    difficulty of [get_difficulty], and a valid hash; it is now the last
    block of the chain, the unspent outputs are what the ledger made of its
    data, the pool has been told, and the new chain has been broadcast
    once. *)
Theorem generate_raw_next_block_returns_the_new_tip
    fuel now now' (data : list Transaction) self b self' :
  Blockchain.generate_raw_next_block fuel now now' data self
  = Some (Ok (Some b), self') →
  ∃ tip d u calls,
    Blockchain.get_latest self = Ok tip
    ∧ Blockchain.get_difficulty self = Ok d
    ∧ b = Block.mk (Block.index tip + 1) (Some (Block.hash tip)) now data d
            (Block.nonce b) (Block.hash b)
    ∧ Block.has_valid_hash b = Ok true
    ∧ process_transactions data (Blockchain.unspent_tx_outs self)
        (Block.index tip + 1) = Some u
    ∧ Blockchain.p2p_application self = Some calls
    ∧ self' = Blockchain.mk (Blockchain.blocks self ++ [b])
                (Some (calls ++ [Blockchain.BroadcastLatest
                                   (Blockchain.blocks self ++ [b])]))
                (pool_update u (Blockchain.tx_pool self)) u.
Proof. apply generate_raw_next_block_Ok. Qed.

(** X24: the blocks that [generate_next_block] and
    [generate_next_with_transaction] return are built like those of
    [generate_raw_next_block]; the data of the first is the coinbase
    transaction for the key of the wallet at the height of the new block,
    followed by the transactions of the pool in their order; the data of
    the second is that coinbase transaction and the transaction the wallet
    created, and nothing from the pool. *)
Theorem generated_blocks_data fuel now now' wallet (receiver : bytes)
    (a : Blockchain.amount) self b self' :
  (Blockchain.generate_next_block fuel now now' wallet self
   = Some (Ok (Some b), self') →
   ∃ tip,
     Blockchain.get_latest self = Ok tip
     ∧ Block.index b = Block.index tip + 1
     ∧ Block.data b
       = coinbase (wallet_get_public_key wallet) (Block.index tip + 1)
         :: pool_transactions (Blockchain.tx_pool self)
     ∧ Blockchain.blocks self' = Blockchain.blocks self ++ [b])
  ∧ (Blockchain.generate_next_with_transaction fuel now now' wallet receiver a self
     = Some (Ok (Some b), self') →
     ∃ tip d tx,
       Blockchain.get_latest self = Ok tip
       ∧ is_valid_address receiver = true
       ∧ a = Blockchain.AmountDecimal d
       ∧ wallet_create_transaction wallet receiver d
           (Blockchain.unspent_tx_outs self) (Blockchain.tx_pool self) = Ok tx
       ∧ Block.index b = Block.index tip + 1
       ∧ Block.data b
         = [coinbase (wallet_get_public_key wallet) (Block.index tip + 1); tx]
       ∧ Blockchain.blocks self' = Blockchain.blocks self ++ [b]).
Proof.
  split.
  - unfold Blockchain.generate_next_block.
    destruct (Blockchain.get_latest self) as [tip|e] eqn:Ht; [|discriminate].
    intros (tip' & d & u & calls & Ht' & _ & Hb & _ & _ & _ & ->)
      %generate_raw_next_block_Ok.
    rewrite Ht in Ht'. injection Ht' as <-. exists tip. rewrite Hb. done.
  - unfold Blockchain.generate_next_with_transaction.
    destruct (is_valid_address receiver) eqn:Hv; cbn [negb]; [|discriminate].
    destruct a as [d|v]; [|discriminate].
    destruct (Blockchain.get_latest self) as [tip|e] eqn:Ht; [|discriminate].
    destruct (wallet_create_transaction _ _ _ _ _) as [tx|e] eqn:Hw; [|discriminate].
    intros (tip' & d' & u & calls & Ht' & _ & Hb & _ & _ & _ & ->)
      %generate_raw_next_block_Ok.
    rewrite Ht in Ht'. injection Ht' as <-. exists tip, d, tx. rewrite Hb. done.
Qed.

(** X19: [send_transaction] and [handle_received_transaction] never touch
    the blocks nor the unspent outputs; the first returns the transaction
    of the wallet once the pool has taken it and the pool has been
    broadcast, and raises the bad-request error, after the call of the
    pool, when the pool refuses it; the second returns the verdict of the
    pool. *)
Theorem pool_operations_keep_the_chain
    wallet (receiver : bytes) (a : Decimal) (tx : Transaction) self :
  (∀ r self',
     Blockchain.send_transaction wallet receiver a self = (r, self') →
     Blockchain.same_chain self self'
     ∧ (∀ tx', r = Ok tx' →
          wallet_create_transaction wallet receiver a
            (Blockchain.unspent_tx_outs self) (Blockchain.tx_pool self) = Ok tx'
          ∧ fst (pool_add_transaction tx' (Blockchain.unspent_tx_outs self)
                   (Blockchain.tx_pool self)) = true
          ∧ ∃ calls,
              Blockchain.p2p_application self = Some calls
              ∧ Blockchain.p2p_application self'
                = Some (calls ++ [Blockchain.BroadcastTransactionPool
                                    (Blockchain.tx_pool self')]))
     ∧ (∀ tx',
          wallet_create_transaction wallet receiver a
            (Blockchain.unspent_tx_outs self) (Blockchain.tx_pool self) = Ok tx' →
          fst (pool_add_transaction tx' (Blockchain.unspent_tx_outs self)
                 (Blockchain.tx_pool self)) = false →
          r = Raise (BadRequestError
                       "invalid transaction or transaction is already in the pool"
                       None)))
  ∧ Blockchain.handle_received_transaction tx self
    = (Ok (fst (pool_add_transaction tx (Blockchain.unspent_tx_outs self)
                  (Blockchain.tx_pool self))),
       Blockchain.mk (Blockchain.blocks self) (Blockchain.p2p_application self)
         (snd (pool_add_transaction tx (Blockchain.unspent_tx_outs self)
                 (Blockchain.tx_pool self)))
         (Blockchain.unspent_tx_outs self)).
Proof.
  split.
  - intros r self' Hrun. split; [by eapply send_transaction_effect|].
    unfold Blockchain.send_transaction, Blockchain.broadcast_transaction_pool in Hrun.
    run.
    destruct (wallet_create_transaction _ _ _ _ _) as [tx0|e] eqn:Hw.
    2: { injection Hrun as <- <-. split; [discriminate|]. intros tx' [=]. }
    destruct (pool_add_transaction _ _ _) as [[|] pool] eqn:Hp; cbn in Hrun.
    + destruct (Blockchain.p2p_application self) as [calls|] eqn:Hc;
        injection Hrun as <- <-.
      * split.
        -- intros tx' [= <-]. split; [done|]. rewrite Hp. split; [done|].
           exists calls. done.
        -- intros tx' [= <-]. rewrite Hp. discriminate.
      * split; [discriminate|]. intros tx' [= <-]. rewrite Hp. discriminate.
    + injection Hrun as <- <-. split; [discriminate|]. intros tx' [= <-] _. done.
  - unfold Blockchain.handle_received_transaction. run.
    by destruct (pool_add_transaction _ _ _).
Qed.

End Generation.

Lemma generate_raw_next_block_returns_the_new_tip_witness :
  Blockchain.generate_raw_next_block 1 1528359040000000 1528359040000000 []
    Ledger.started
  = Some (Ok (Some Ledger.first_block), Ledger.after_first_block)
  ∧ ∃ tip d u calls,
      Blockchain.get_latest Ledger.started = Ok tip
      ∧ Blockchain.get_difficulty Ledger.started = Ok d
      ∧ Ledger.first_block
        = Block.mk (Block.index tip + 1) (Some (Block.hash tip)) 1528359040000000
            [] d (Block.nonce Ledger.first_block) (Block.hash Ledger.first_block)
      ∧ Block.has_valid_hash Ledger.first_block = Ok true
      ∧ process_transactions [] (Blockchain.unspent_tx_outs Ledger.started)
          (Block.index tip + 1) = Some u
      ∧ Blockchain.p2p_application Ledger.started = Some calls
      ∧ Ledger.after_first_block
        = Blockchain.mk (Blockchain.blocks Ledger.started ++ [Ledger.first_block])
            (Some (calls ++ [Blockchain.BroadcastLatest
                               (Blockchain.blocks Ledger.started
                                ++ [Ledger.first_block])]))
            (pool_update u (Blockchain.tx_pool Ledger.started)) u.
Proof.
  assert (Hg :
    Blockchain.generate_raw_next_block 1 1528359040000000 1528359040000000 []
      Ledger.started
    = Some (Ok (Some Ledger.first_block), Ledger.after_first_block))
    by (vm_compute; reflexivity).
  split; [exact Hg|].
  exact (generate_raw_next_block_returns_the_new_tip _ _ _ _ _ _ _ Hg).
Defined.

(** ** Validation of a candidate chain *)

Section Validation.
Context `{Collaborators Transaction UnspentTxOut TransactionPool Wallet Decimal}.
Implicit Types (b g p : Block.t Transaction) (rest : list (Block.t Transaction))
  (u r : list UnspentTxOut) (l : list (pyobj (Transaction := Transaction))).

Lemma validate_from_on_time l : ∀ now i p u r,
  Blockchain.validate_from now i (Some p) l u = Ok (Some r) →
  ∃ rest, l = map PyBlock rest ∧ Blockchain.on_time now i rest.
Proof.
  induction l as [|o l IH]; intros now i p u r Hv.
  - exists []. done.
  - destruct o as [b|raw]; [|discriminate]. cbn [Blockchain.validate_from] in Hv.
    apply bind_Ok in Hv as (valid & Hvalid & Hv).
    destruct valid; [|discriminate]. cbn [negb] in Hv.
    destruct (process_transactions _ _ _) as [u'|]; [|discriminate].
    apply IH in Hv as (rest & -> & Ho).
    apply is_valid_next_true in Hvalid as [_ Ht].
    exists (b :: rest). done.
Qed.

Lemma validate_from_complete rest : ∀ now i p u r,
  Blockchain.chained p rest → Blockchain.on_time now i rest →
  Blockchain.fold_transactions rest u = Some r →
  Blockchain.validate_from now i (Some p) (map PyBlock rest) u = Ok (Some r).
Proof.
  induction rest as [|b rest IH]; intros now i p u r Hc Ho Hf.
  - injection Hf as <-. done.
  - destruct Hc as [Hpb Hc]. destruct Ho as [Ht Ho].
    cbn [map Blockchain.validate_from].
    replace (Block.is_valid_next (now i) p b) with (Ok true)
      by (symmetry; apply is_valid_next_true; done).
    cbn [mbind Result_bind negb]. rewrite fold_transactions_cons in Hf.
    destruct (process_transactions _ _ _) as [u'|]; [|discriminate].
    by apply IH.
Qed.

(** X20: [validate_blocks] returns a set of unspent outputs exactly for a
    list that holds blocks only, the first one equal to the genesis block,
    each other one following the block before it (index, previous hash,
    timestamp less than 60 seconds back, valid hash) and stamped less than
    60 seconds after the clock read when it is checked, and whose
    transactions the ledger accepts block after block; what it returns is
    the fold of the ledger over these blocks from the empty set. *)
Theorem validate_blocks_accepts now (new_blocks : pyarg) u :
  Blockchain.validate_blocks now new_blocks = Ok (Some u)
  ↔ ∃ g rest,
      Block.genesis_block = Ok g
      ∧ new_blocks = PyList (map PyBlock (g :: rest))
      ∧ Blockchain.chained g rest
      ∧ Blockchain.on_time now 1 rest
      ∧ Blockchain.fold_transactions (g :: rest) [] = Some u.
Proof.
  split.
  - intros Hv.
    pose proof (validate_blocks_Some _ _ _ Hv) as (g & rest & Hg & -> & _ & Hc & Hf).
    exists g, rest. repeat apply conj; try done.
    unfold Blockchain.validate_blocks in Hv. cbn [map] in Hv.
    apply bind_Ok in Hv as (isg & _ & Hv). destruct isg; [|discriminate].
    cbn [negb Blockchain.validate_from mbind Result_bind] in Hv.
    destruct (process_transactions _ _ _) as [u'|]; [|discriminate].
    apply validate_from_on_time in Hv as (rest' & Hl & Ho).
    apply map_PyBlock_inj in Hl as <-. done.
  - intros (g & rest & Hg & -> & Hc & Ho & Hf).
    unfold Blockchain.validate_blocks, Blockchain.is_genesis, Block.is_genesis.
    cbn [map]. rewrite Hg. cbn [mbind Result_bind].
    replace (Block.eqb g g) with true by (symmetry; by apply eqb_eq).
    cbn [negb Blockchain.validate_from mbind Result_bind].
    rewrite fold_transactions_cons in Hf.
    destruct (process_transactions _ _ _) as [u'|]; [|discriminate].
    by apply validate_from_complete.
Qed.



End Validation.


(** ** What the checks leave out *)

Section Unchecked.
Context `{Collaborators Transaction UnspentTxOut TransactionPool Wallet Decimal}.
Implicit Types self : Blockchain.t (Transaction := Transaction)
  (UnspentTxOut := UnspentTxOut) (TransactionPool := TransactionPool).
Implicit Types (b tip : Block.t Transaction) (ph : option bytes)
  (data : list Transaction).


(** X23: [add_block] does not compare the difficulty of a block with the
    one [get_difficulty] asks for: a block of difficulty 0 and nonce 0 that
    follows the tip, is stamped within the tolerance and carries
    transactions the ledger accepts is appended, whatever the difficulty
    the chain has reached. *)
Theorem add_block_accepts_difficulty_zero now self tip (ts : datetime) data u :
  Blockchain.get_latest self = Ok tip →
  Block.fits (Block.index tip + 1) →
  Block.fits (timestamp_int ts) →
  Block.timestamp tip - ts < seconds 60 →
  ts - now < seconds 60 →
  process_transactions data (Blockchain.unspent_tx_outs self) (Block.index tip + 1)
  = Some u →
  ∃ b,
    Block.init (Block.index tip + 1) (Some (Block.hash tip)) ts data 0 0 = Ok b
    ∧ Blockchain.add_block now (PyBlock b) self
      = (Ok true,
         Blockchain.mk (Blockchain.blocks self ++ [b])
           (Blockchain.p2p_application self)
           (pool_update u (Blockchain.tx_pool self)) u).
Proof.
  intros Htip Hi Hts Hback Hnow Hu.
  assert (H0 : Block.fits 0) by (unfold Block.fits; lia).
  pose proof (calculate_hash_fits (Block.index tip + 1) (Some (Block.hash tip))
                ts data 0 0 Hi Hts H0 H0) as Hh.
  eexists. split; [apply init_Ok; eexists; split; [exact Hh | reflexivity]|].
  rewrite add_block_run, Htip.
  replace (Block.is_valid_next now tip _) with (Ok true).
  - cbn [Block.data Block.index]. rewrite Hu. done.
  - symmetry. apply is_valid_next_true. split; [|done].
    unfold Blockchain.follows.
    cbn [Block.index Block.previous_hash Block.timestamp].
    repeat apply conj; try done.
    rewrite has_valid_hash_consistent by exact Hh. done.
Qed.

End Unchecked.


Lemma add_block_accepts_difficulty_zero_witness :
  Blockchain.get_latest Ledger.ten_blocks = Ok Ledger.tenth_block
  ∧ Blockchain.get_difficulty Ledger.ten_blocks = Ok 1
  ∧ Block.fits (Block.index Ledger.tenth_block + 1)
  ∧ Block.fits (timestamp_int 1528360040000000)
  ∧ Block.timestamp Ledger.tenth_block - 1528360040000000 < seconds 60
  ∧ 1528360040000000 - 1528360040000000 < seconds 60
  ∧ process_transactions [] (Blockchain.unspent_tx_outs Ledger.ten_blocks)
      (Block.index Ledger.tenth_block + 1) = Some []
  ∧ ∃ b,
      Block.init (Block.index Ledger.tenth_block + 1)
        (Some (Block.hash Ledger.tenth_block)) 1528360040000000 [] 0 0 = Ok b
      ∧ Blockchain.add_block 1528360040000000 (PyBlock b) Ledger.ten_blocks
        = (Ok true,
           Blockchain.mk (Blockchain.blocks Ledger.ten_blocks ++ [b])
             (Blockchain.p2p_application Ledger.ten_blocks)
             (pool_update [] (Blockchain.tx_pool Ledger.ten_blocks)) []).
Proof.
  assert (H1 : Blockchain.get_latest Ledger.ten_blocks = Ok Ledger.tenth_block)
    by reflexivity.
  assert (H2 : Block.fits (Block.index Ledger.tenth_block + 1))
    by (vm_compute; split; congruence).
  assert (H3 : Block.fits (timestamp_int 1528360040000000))
    by (vm_compute; split; congruence).
  assert (H4 : Block.timestamp Ledger.tenth_block - 1528360040000000 < seconds 60)
    by (vm_compute; reflexivity).
  assert (H5 : 1528360040000000 - 1528360040000000 < seconds 60)
    by (vm_compute; reflexivity).
  assert (H6 : process_transactions [] (Blockchain.unspent_tx_outs Ledger.ten_blocks)
                 (Block.index Ledger.tenth_block + 1) = Some [])
    by reflexivity.
  split; [exact H1|]. split; [vm_compute; reflexivity|].
  split; [exact H2|]. split; [exact H3|]. split; [exact H4|]. split; [exact H5|].
  split; [exact H6|].
  exact (add_block_accepts_difficulty_zero _ _ _ _ _ _ H1 H2 H3 H4 H5 H6).
Defined.

(** ** The end of the search *)

Section Termination.
Context `{Collaborators Transaction UnspentTxOut TransactionPool Wallet Decimal}.
Implicit Types (ph : option bytes) (ts : datetime) (data : list Transaction).

Lemma find_from_ends (k : nat) : ∀ index ph ts data d nonce,
  2 ^ 64 ≤ nonce + Z.of_nat k →
  ∃ r, Block.find_from (S k) index ph ts data d nonce = Some r.
Proof.
  induction k as [|k IH]; intros index ph ts data d nonce Hk;
    cbn [Block.find_from].
  - destruct (Block.calculate_hash index ph ts data d nonce) as [h|e] eqn:Hh;
      [|eauto].
    apply calculate_hash_Ok in Hh as (_ & _ & _ & Hn).
    unfold Block.fits in Hn. lia.
  - destruct (Block.calculate_hash index ph ts data d nonce) as [h|e];
      [|eauto].
    destruct (Block.hash_matches_difficulty h d); [eauto|].
    apply IH. lia.
Qed.

(** X25: the loop of [find] is not endless: within [2 ^ 64 + 1] turns it
    returns a block or raises [OverflowError], as it does at the latest
    when the nonce no longer fits eight bytes. *)
Theorem find_ends index ph ts data d :
  ∃ r,
    Block.find (S (Z.to_nat (2 ^ 64))) index ph ts data d = Some r
    ∧ ((∃ b, r = Ok b) ∨ r = Raise OverflowError).
Proof.
  destruct (find_from_ends (Z.to_nat (2 ^ 64)) index ph ts data d 0) as [r Hr];
    [lia|].
  exists r. split; [exact Hr|].
  destruct r as [b|e]; [left; eauto | right]. f_equal.
  unfold Block.find in Hr. revert Hr.
  generalize (S (Z.to_nat (2 ^ 64))) as fuel, 0 as nonce.
  induction fuel as [|fuel IH]; intros nonce Hr; [discriminate|].
  cbn [Block.find_from] in Hr.
  destruct (Block.calculate_hash index ph ts data d nonce) as [h|e'] eqn:Hh.
  - destruct (Block.hash_matches_difficulty h d).
    + injection Hr as Hr. unfold Block.init in Hr. rewrite Hh in Hr. discriminate.
    + by eapply IH.
  - injection Hr as <-. by eapply calculate_hash_Raise.
Qed.

End Termination.

(** ** Candidates that are turned down *)

Section Rejection.
Context `{Collaborators Transaction UnspentTxOut TransactionPool Wallet Decimal}.
Implicit Types self : Blockchain.t (Transaction := Transaction)
  (UnspentTxOut := UnspentTxOut) (TransactionPool := TransactionPool).
Implicit Types (b g : Block.t Transaction)
  (l : list (pyobj (Transaction := Transaction))).

(** X26: [replace] returns false and changes nothing for an argument that
    is not a list, for a list whose first element is not a block equal to
    the genesis block, and for a list that holds, after blocks that are
    accepted, an object that is not a block. *)
Theorem replace_turns_down now self g :
  Block.genesis_block = Ok g →
  Blockchain.replace now PyNotList self = (Ok false, self)
  ∧ (∀ raw l, Blockchain.replace now (PyList (PyOther raw :: l)) self
              = (Ok false, self))
  ∧ (∀ b l, b ≠ g →
            Blockchain.replace now (PyList (PyBlock b :: l)) self = (Ok false, self))
  ∧ (∀ rest raw l u,
       Blockchain.validate_blocks now (PyList (map PyBlock (g :: rest))) = Ok (Some u) →
       Blockchain.replace now
         (PyList (map PyBlock (g :: rest) ++ PyOther raw :: l)) self
       = (Ok false, self)).
Proof.
  intros Hg. split; [by rewrite replace_run|]. split; [|split].
  - intros raw l. rewrite replace_run. unfold Blockchain.validate_blocks.
    cbn. by rewrite Hg.
  - intros b l Hne. rewrite replace_run.
    unfold Blockchain.validate_blocks, Blockchain.is_genesis, Block.is_genesis.
    rewrite Hg. cbn [mbind Result_bind].
    replace (Block.eqb b g) with false; [done|].
    symmetry. apply not_true_is_false. by intros ?%eqb_eq.
  - intros rest raw l u Hv. rewrite replace_run.
    replace (Blockchain.validate_blocks now
               (PyList (map PyBlock (g :: rest) ++ PyOther raw :: l)))
      with (Ok (@None (list UnspentTxOut))); [done|].
    symmetry. unfold Blockchain.validate_blocks in *. cbn [map app] in *.
    apply bind_Ok in Hv as (isg & Hisg & Hv). rewrite Hisg. cbn [mbind Result_bind].
    destruct isg; [|discriminate]. cbn [negb] in *.
    cbn [Blockchain.validate_from mbind Result_bind negb] in *.
    destruct (process_transactions _ _ _) as [u0|]; [|done].
    revert Hv. generalize 1%nat as i, (Some g) as prev, u0 as v.
    induction rest as [|b rest IH]; intros i prev v Hv; [done|].
    cbn [map app Blockchain.validate_from] in *.
    apply bind_Ok in Hv as (valid & -> & Hv). cbn [mbind Result_bind].
    destruct (negb valid); [done|].
    destruct (process_transactions _ _ _) as [v'|]; [|done].
    by eapply IH.
Qed.

End Rejection.

Lemma replace_turns_down_witness :
  Block.genesis_block = Ok Ledger.genesis
  ∧ Blockchain.replace (λ _, 0) PyNotList Ledger.started = (Ok false, Ledger.started).
Proof.
  assert (Hg : Block.genesis_block = Ok Ledger.genesis) by (vm_compute; reflexivity).
  split; [exact Hg|].
  exact (proj1 (replace_turns_down (λ _, 0) Ledger.started Ledger.genesis Hg)).
Defined.

(** ** The chain against its own validation, and the outputs of an address *)

Section Own.
Context `{Collaborators Transaction UnspentTxOut TransactionPool Wallet Decimal}.
Implicit Types self : Blockchain.t (Transaction := Transaction)
  (UnspentTxOut := UnspentTxOut) (TransactionPool := TransactionPool).
Implicit Types (b g : Block.t Transaction) (rest : list (Block.t Transaction)).

Lemma on_time_late now (i : nat) rest :
  (∀ (j : nat) b, rest !! j = Some b → Block.timestamp b - now (i + j)%nat < seconds 60) →
  Blockchain.on_time now i rest.
Proof.
  revert i. induction rest as [|b rest IH]; intros i Hlate; [done|].
  split.
  - specialize (Hlate 0%nat b eq_refl). by rewrite Nat.add_0_r in Hlate.
  - apply IH. intros j b' Hj. specialize (Hlate (S j) b' Hj).
    by replace (i + S j)%nat with (S i + j)%nat in Hlate by lia.
Qed.

(** X27: a chain created by the constructor and used through its
    operations passes its own validation: handed to [validate_blocks]
    while the clock shows less than 60 seconds before the timestamp of
    each of its blocks or later, its blocks give back the unspent outputs
    the chain stores (the ledger mapping the empty genesis block to the
    empty set). *)
Theorem reachable_chain_validates now self :
  process_transactions [] [] 0 = Some [] →
  Blockchain.reachable self →
  (∀ (i : nat) b, Blockchain.blocks self !! i = Some b →
                  Block.timestamp b - now i < seconds 60) →
  Blockchain.validate_blocks now (PyList (map PyBlock (Blockchain.blocks self)))
  = Ok (Some (Blockchain.unspent_tx_outs self)).
Proof.
  intros Hempty Hreach Hlate.
  pose proof (reachable_ledger_consistent self Hempty Hreach) as Hfold.
  pose proof (reachable_well_formed self Hreach) as (g & rest & Hg & Hb & Hch).
  unfold Blockchain.ledger_consistent in Hfold. rewrite Hb in *.
  unfold Blockchain.validate_blocks, Blockchain.is_genesis, Block.is_genesis.
  cbn [map]. rewrite Hg. cbn [mbind Result_bind].
  replace (Block.eqb g g) with true by (symmetry; by apply eqb_eq).
  cbn [negb Blockchain.validate_from mbind Result_bind].
  rewrite fold_transactions_cons in Hfold.
  destruct (process_transactions (Block.data g) [] (Block.index g)) as [u'|];
    [|discriminate].
  apply validate_from_complete; [done| |done].
  apply on_time_late. intros j b Hj. apply (Hlate (S j) b). done.
Qed.

(** X28: [unspent_tx_outs_for_address] returns, in the order of the
    ledger, the unspent outputs whose address is the one given: all of
    them, each as often as the ledger holds it, and no other;
    [my_unspent_tx_outs] does so for the key of the wallet. *)
Theorem unspent_tx_outs_for_address_selects self (addr : bytes) (wallet : Wallet) :
  (∀ uTxO : UnspentTxOut,
     uTxO ∈ Blockchain.unspent_tx_outs_for_address self addr
     ↔ uTxO ∈ Blockchain.unspent_tx_outs self ∧ address uTxO = addr)
  ∧ Blockchain.unspent_tx_outs_for_address self addr
    `sublist_of` Blockchain.unspent_tx_outs self
  ∧ Blockchain.unspent_tx_outs_for_address self addr
    ++ filter (λ uTxO, address uTxO ≠ addr) (Blockchain.unspent_tx_outs self)
    ≡ₚ Blockchain.unspent_tx_outs self
  ∧ Blockchain.my_unspent_tx_outs self wallet
    = Blockchain.unspent_tx_outs_for_address self (wallet_get_public_key wallet).
Proof.
  unfold Blockchain.my_unspent_tx_outs, Blockchain.unspent_tx_outs_for_address.
  split; [|split; [|split]].
  - intros uTxO. rewrite list_elem_of_filter. tauto.
  - apply sublist_filter.
  - apply filter_app_complement.
  - done.
Qed.

End Own.

Lemma reachable_chain_validates_witness :
  process_transactions (Transaction := Z) (UnspentTxOut := Z) [] [] 0 = Some []
  ∧ Blockchain.reachable Ledger.ten_blocks
  ∧ (∀ (i : nat) b, Blockchain.blocks Ledger.ten_blocks !! i = Some b →
                    Block.timestamp b - 1528360040000000 < seconds 60)
  ∧ Blockchain.validate_blocks (λ _, 1528360040000000)
      (PyList (map PyBlock (Blockchain.blocks Ledger.ten_blocks)))
    = Ok (Some (Blockchain.unspent_tx_outs Ledger.ten_blocks)).
Proof.
  assert (H0 : process_transactions (Transaction := Z) (UnspentTxOut := Z) [] [] 0
               = Some []) by reflexivity.
  assert (H2 : ∀ (i : nat) b, Blockchain.blocks Ledger.ten_blocks !! i = Some b →
                 Block.timestamp b - 1528360040000000 < seconds 60).
  { intros i b Hi.
    do 11 (destruct i as [|i]; [injection Hi as <-; vm_compute; reflexivity|]).
    discriminate Hi. }
  split; [exact H0|]. split; [exact ten_blocks_reachable|]. split; [exact H2|].
  exact (reachable_chain_validates (λ _, 1528360040000000) Ledger.ten_blocks
           H0 ten_blocks_reachable H2).
Defined.
